(** * Verification of the Mumbai LLM evaluation scripts

    Shallow embedding of [mumbai_llm_test.js] (batch runner and scorer) and
    [askOllama.js] (single-model runner), and the properties of their
    specification proved or refuted on it. *)

From Stdlib Require Import ZArith NArith Lia List Ascii String Bool DecimalString.
From Stdlib Require Import Floats.PrimFloat Floats.FloatOps Floats.SpecFloat.
From stdpp Require Import base option list strings gmap.

Local Open Scope Z_scope.

(** ** JavaScript strings

    A JavaScript string is a sequence of UTF-16 code units; [length],
    [includes] and [split] all work on code units.  Answers and prompts
    (arbitrary text, Hindi included) are modelled as such sequences.  Model
    names, file names and error messages, whose length is never taken, are
    plain [string]s. *)

Abbreviation jsstring := (list N).

(** The code units of an ASCII literal of the source. *)
Definition lit (s : string) : jsstring :=
  map N_of_ascii (list_ascii_of_string s).

(** [needle] occurs at the very start of [s]. *)
Fixpoint startsWithUnits (needle s : jsstring) : bool :=
  match needle, s with
  | [], _ => true
  | _ :: _, [] => false
  | c :: needle', d :: s' => (c =? d)%N && startsWithUnits needle' s'
  end.

(** [s.includes(needle)]: [needle] occurs at some position of [s]. *)
Fixpoint includes (s needle : jsstring) : bool :=
  startsWithUnits needle s
  || match s with
     | [] => false
     | _ :: s' => includes s' needle
     end.

(** [s.split(sep)] for a separator of one code unit; [cur] holds the code
    units of the piece being read, last one first. *)
Fixpoint split_from (sep : N) (cur s : jsstring) : list jsstring :=
  match s with
  | [] => [rev cur]
  | c :: s' =>
      if (c =? sep)%N then rev cur :: split_from sep [] s'
      else split_from sep (c :: cur) s'
  end.

Definition split (s : jsstring) (sep : N) : list jsstring :=
  split_from sep [] s.

Definition SPACE : N := 32.

(** ** The scorer, [scoreAnswer] of mumbai_llm_test.js

    [String.prototype.toLowerCase] is a built-in of the runtime (full Unicode
    case mapping); the scorer is modelled over any such function. *)

Module Scorer.

Section WithLowerCase.

Variable toLowerCase : jsstring -> jsstring.

Definition scoreAnswer (answer : jsstring) (questionId : Z) : Z :=
  let length := Z.of_nat (List.length answer) in
  let score := 50 in
  let score := if length <? 50 then score - 20 else score in
  let score := if 500 <? length then score + 10 else score in
  let score :=
    if includes answer (lit "sorry") || includes answer (lit "not sure")
    then score - 15 else score in
  let score :=
    if 100 <? Z.of_nat (List.length (split answer SPACE))
    then score + 5 else score in
  let score :=
    if (questionId =? 1) && includes (toLowerCase answer) (lit "vada pav")
    then score + 20 else score in
  let score :=
    if (questionId =? 12)
       && includes (toLowerCase answer) (lit "financial capital")
    then score + 15 else score in
  Z.max 0 (Z.min 100 score).

(** *** The reference algorithm, in the words of the specification *)

(** White space and line terminators of the language. *)
Definition is_whitespace (c : N) : bool :=
  ((9 <=? c) && (c <=? 13) || (c =? 32) || (c =? 160) || (c =? 5760)
   || (8192 <=? c) && (c <=? 8202) || (c =? 8232) || (c =? 8233)
   || (c =? 8239) || (c =? 8287) || (c =? 12288) || (c =? 65279))%N.

(** Number of maximal runs of code units that are not white space;
    [in_word] tells whether the previous code unit belonged to a word. *)
Fixpoint word_count_from (in_word : bool) (s : jsstring) : nat :=
  match s with
  | [] => 0%nat
  | c :: s' =>
      if is_whitespace c then word_count_from false s'
      else ((if in_word then 0 else 1) + word_count_from true s')%nat
  end.

Definition word_count (s : jsstring) : nat := word_count_from false s.

Definition clamp (lo hi x : Z) : Z :=
  if x <? lo then lo else if hi <? x then hi else x.

(** The adjustment of one step: [delta] when the condition holds. *)
Definition step (cond : bool) (delta : Z) : Z := if cond then delta else 0.

(** Steps 1 to 8 of section 4.3, the fifth one taken as a count of
    white-space delimited words. *)
Definition score_reference (a : jsstring) (questionId : Z) : Z :=
  clamp 0 100
    (50
     + step (Z.of_nat (List.length a) <? 50) (-20)
     + step (500 <? Z.of_nat (List.length a)) 10
     + step (includes a (lit "sorry") || includes a (lit "not sure")) (-15)
     + step (100 <? Z.of_nat (word_count a)) 5
     + step ((questionId =? 1) && includes (toLowerCase a) (lit "vada pav")) 20
     + step ((questionId =? 12)
             && includes (toLowerCase a) (lit "financial capital")) 15).

(** Number of U+0020 code units of a string. *)
Definition count_spaces (a : jsstring) : nat :=
  List.length (filter (λ c, c = SPACE) a).

(** The same steps, the fifth one taken as the code has it: the answer is
    cut at every single U+0020, which gives one piece more than it has
    such code units. *)
Definition score_reference_spaces (a : jsstring) (questionId : Z) : Z :=
  clamp 0 100
    (50
     + step (Z.of_nat (List.length a) <? 50) (-20)
     + step (500 <? Z.of_nat (List.length a)) 10
     + step (includes a (lit "sorry") || includes a (lit "not sure")) (-15)
     + step (100 <=? Z.of_nat (count_spaces a)) 5
     + step ((questionId =? 1) && includes (toLowerCase a) (lit "vada pav")) 20
     + step ((questionId =? 12)
             && includes (toLowerCase a) (lit "financial capital")) 15).

End WithLowerCase.

(** [toLowerCase] on strings whose code units are all ASCII: the letters
    A to Z move to a to z, nothing else changes. *)
Definition ascii_toLowerCase (s : jsstring) : jsstring :=
  map (λ c, if (65 <=? c) && (c <=? 90) then c + 32 else c)%N s.

End Scorer.

(** ** JSON values and numbers

    Numbers are IEEE 754 double precision, as in the language.  An object
    lists its own properties in the order in which the language enumerates
    them, each key once, as [JSON.parse] builds it. *)

#[warnings="-register-all"]
Inductive json :=
| JNull
| JBool (b : bool)
| JNum (x : float)
| JStr (s : jsstring)
| JArr (items : list json)
| JObj (fields : list (string * json)).

(** The Number nearest to an integer: the integer itself up to 2^53 in
    magnitude, rounded to nearest (ties to even) above, an infinity from
    2^1024 on. *)
Definition Number_of_Z (z : Z) : float :=
  SF2Prim (binary_normalize prec emax z 0 false).

Definition Number_of_nat (n : nat) : float := Number_of_Z (Z.of_nat n).

(** Own property [k] of an object, first binding. *)
Fixpoint field {A} (k : string) (fields : list (string * A)) : option A :=
  match fields with
  | [] => None
  | (k', v) :: rest => if String.eqb k k' then Some v else field k rest
  end.

(** [obj[k] = v] on an object whose keys are not integer-like: an existing
    key keeps its place, a new one goes last. *)
Fixpoint obj_set {A} (k : string) (v : A) (fields : list (string * A))
  : list (string * A) :=
  match fields with
  | [] => [(k, v)]
  | (k', v') :: rest =>
      if String.eqb k k' then (k, v) :: rest else (k', v') :: obj_set k v rest
  end.

(** An object literal as [JSON.stringify] shows it: a property whose value
    is [undefined] is left out. *)
Fixpoint object_literal (props : list (string * option json))
  : list (string * json) :=
  match props with
  | [] => []
  | (k, Some v) :: rest => (k, v) :: object_literal rest
  | (_, None) :: rest => object_literal rest
  end.

(** [value.key] for a value that is not [null] and a key that only a parsed
    object can carry: anything that is not an object has no such
    property. *)
Definition own (value : json) (key : string) : option json :=
  match value with
  | JObj fields => field key fields
  | _ => None
  end.

(** [JSON.parse (JSON.stringify v)]: the value that the text written for
    [v] denotes.  JSON has no text for NaN and the infinities, which are
    written as [null], and none for the sign of zero: -0 is written as 0.
    Every other Number is written with the digits that give it back, and
    strings, arrays and objects keep their shape. *)
Fixpoint printed (v : json) : json :=
  match v with
  | JNum x =>
      if PrimFloat.is_nan x || PrimFloat.is_infinity x then JNull
      else if PrimFloat.is_zero x then JNum PrimFloat.zero
      else JNum x
  | JArr items => JArr (map printed items)
  | JObj fields => JObj (map (λ kv, (kv.1, printed kv.2)) fields)
  | _ => v
  end.

(** Writing a value changes nothing of it. *)
Definition stable (v : json) : Prop := printed v = v.

(** ** The world outside the scripts: service, files, clock, console *)

(** What a file holds: JSON text, kept as the value that [JSON.parse]
    gives for it, or text that does not parse. *)
Inductive file :=
| FileJson (v : json)
| FileGarbage.

(** The text [JSON.stringify(v, null, 2)], as the content of a file. *)
Definition JSON_stringify (v : json) : file := FileJson (printed v).

Inductive LogLine :=
(* askOllama.js *)
| ConnectionFailed (msg : string)
| AskingQuestion (number total : nat) (english : option json)
| AnswerPreview (chars : nat) (first100 : jsstring)
| QuestionFailed (number : nat) (msg : string)
| Uncaught (msg : string)
(* mumbai_llm_test.js *)
| Testing (model : string)
| ModelNotFound (model : string)
| BarStart (total : option json)
| BarUpdate (done : nat)
| BarStop
| QFailed (id : option json) (msg : string)
| UnexpectedError (msg : string)
| AllComplete.

(** Everything a run does to its environment, in the order it does it. *)
Inductive Event :=
| EvChat (model : string) (content : option json) (timeout : option Z)
| EvList
| EvWrite (path : string) (data : file)
| EvSleep (ms : Z)
| EvNow
| EvLog (line : LogLine).

(** The environment answers every request from the history of the run so
    far (newest event first): the chat service may answer or fail, a write
    may fail, the clock gives the time. *)
Record Service := {
  chat_reply : list Event → string → option json → option Z → jsstring + string;
  list_reply : list Event → list string + string;
  write_error : list Event → string → file → option string;
  now_ms : list Event → Z;
  now_iso : list Event → jsstring
}.

(** Built-ins of the runtime that the scripts call and that are taken as
    given: [String.prototype.toLowerCase] and [Number.prototype.toFixed]
    called with 1. *)
Record Runtime := {
  toLowerCase : jsstring → jsstring;
  toFixed1 : float → jsstring
}.

Record World := {
  fs : gmap string file;
  events : list Event   (* newest first *)
}.

(** The events of a run in the order they happened. *)
Definition trace (w : World) : list Event := rev (events w).

Definition emit (e : Event) (w : World) : World :=
  {| fs := fs w; events := e :: events w |}.

(** A run starts with the files it finds and an empty history. *)
Definition initial (files : gmap string file) : World :=
  {| fs := files; events := [] |}.

(** ** Computations: state, exceptions, process exit *)

Inductive Outcome (A : Type) :=
| Ret (a : A)
| Throw (msg : string)
| Exit (code : Z).
Arguments Ret {A} a.
Arguments Throw {A} msg.
Arguments Exit {A} code.

Definition M (A : Type) : Type := World → Outcome A * World.

#[global] Instance M_ret : MRet M := λ A a w, (Ret a, w).
#[global] Instance M_bind : MBind M := λ A B f m w,
  match m w with
  | (Ret a, w') => f a w'
  | (Throw msg, w') => (Throw msg, w')
  | (Exit c, w') => (Exit c, w')
  end.

Definition throw {A} (msg : string) : M A := λ w, (Throw msg, w).

(** [process.exit(code)] *)
Definition process_exit {A} (code : Z) : M A := λ w, (Exit code, w).

(** [try { body } catch (error) { handler(error.message) }] *)
Definition try_catch {A} (body : M A) (handler : string → M A) : M A := λ w,
  match body w with
  | (Throw msg, w') => handler msg w'
  | r => r
  end.

Definition perform (e : Event) : M unit := λ w, (Ret tt, emit e w).

Definition console (line : LogLine) : M unit := perform (EvLog line).

Definition sleep (ms : Z) : M unit := perform (EvSleep ms).

Section WithService.

Variable svc : Service.

Definition chat (model : string) (content : option json) (timeout : option Z)
  : M jsstring := λ w,
  let w' := emit (EvChat model content timeout) w in
  match chat_reply svc (events w) model content timeout with
  | inl text => (Ret text, w')
  | inr msg => (Throw msg, w')
  end.

Definition ollama_list : M (list string) := λ w,
  let w' := emit EvList w in
  match list_reply svc (events w) with
  | inl names => (Ret names, w')
  | inr msg => (Throw msg, w')
  end.

(** [fs.writeFile]: the whole file is replaced, or the write fails. *)
Definition writeFile (path : string) (data : file) : M unit := λ w,
  match write_error svc (events w) path data with
  | Some msg => (Throw msg, emit (EvWrite path data) w)
  | None =>
      (Ret tt, {| fs := <[path := data]> (fs w);
                  events := EvWrite path data :: events w |})
  end.

Definition Date_now : M Z := λ w, (Ret (now_ms svc (events w)), emit EvNow w).

Definition Date_toISOString : M jsstring :=
  λ w, (Ret (now_iso svc (events w)), emit EvNow w).

End WithService.

(** [fs.access] *)
Definition access (path : string) : M unit := λ w,
  match fs w !! path with
  | Some _ => (Ret tt, w)
  | None => (Throw "ENOENT: no such file or directory", w)
  end.

(** [JSON.parse(await fs.readFile(path))] *)
Definition readJson (path : string) : M json := λ w,
  match fs w !! path with
  | None => (Throw "ENOENT: no such file or directory", w)
  | Some FileGarbage => (Throw "SyntaxError: Unexpected token in JSON", w)
  | Some (FileJson v) => (Ret v, w)
  end.

(** [value.key] for a key that only a parsed object can carry: reading it
    off [null] raises, anything that is not an object has no such
    property. *)
Definition property (value : json) (key : string) : M (option json) :=
  match value with
  | JNull => throw "TypeError: Cannot read properties of null"
  | _ => mret (own value key)
  end.

(** [value.length]: the number of elements of an array, of code units of a
    string, the property of that name of an object. *)
Definition length_of (value : json) : M (option json) :=
  match value with
  | JNull => throw "TypeError: Cannot read properties of null"
  | JArr items => mret (Some (JNum (Number_of_nat (length items))))
  | JStr s => mret (Some (JNum (Number_of_nat (length s))))
  | _ => mret (own value "length")
  end.

(** [value.entries()]: only an array has the method. *)
Definition entries (value : json) : M (list json) :=
  match value with
  | JNull => throw "TypeError: Cannot read properties of null"
  | JArr items => mret items
  | _ => throw "TypeError: entries is not a function"
  end.

(** A loop over the entries of an array, threading the loop state, the
    index counted from [i]. *)
Fixpoint for_entries {A St} (body : St → nat → A → M St) (i : nat) (s : St)
    (l : list A) : M St :=
  match l with
  | [] => mret s
  | x :: l' => s' ← body s i x; for_entries body (S i) s' l'
  end.

(** ** askOllama.js: one model, the questions one by one *)

Module AskOllama.

Definition RESULTS_FILE : string := "./results.json".
Definition QUESTIONS_FILE : string := "./questions.json".
Definition MODEL_NAME : string := "llama3".
Definition DELAY_BETWEEN_QUESTIONS : Z := 2000.

(** [existingResults.push(result)]: only an array has the method. *)
Definition push (existingResults : json) (result : json) : M json :=
  match existingResults with
  | JArr items => mret (JArr (items ++ [result]))
  | _ => throw "TypeError: existingResults.push is not a function"
  end.

(** [content.substring(0, 100)] *)
Definition first100 (content : jsstring) : jsstring := take 100 content.

Section WithService.

Variable svc : Service.

Definition initResultsFile : M unit :=
  try_catch (access RESULTS_FILE)
            (λ _, writeFile svc RESULTS_FILE (FileJson (JArr []))).

Definition checkOllama : M bool :=
  try_catch
    (_ ← chat svc MODEL_NAME (Some (JStr (lit "ping"))) (Some 5000);
     mret true)
    (λ msg, console (ConnectionFailed msg);; process_exit 1).

(** One turn of the loop of [processQuestions]; the loop state is the
    array [existingResults], which [push] extends in place: it keeps an
    entry even when the write that follows fails. *)
Definition askQuestion (total : nat) (existingResults : json) (index : nat)
    (questionObj : json) : M json := λ w,
  let attempt : M json :=
    english ← property questionObj "english";
    console (AskingQuestion (index + 1) total english);;
    content ← chat svc MODEL_NAME english (Some 30000);
    id ← property questionObj "id";
    question ← property questionObj "english";
    timestamp ← Date_toISOString svc;
    let result :=
      JObj (object_literal
              [("id", id); ("question", question);
               ("answer", Some (JStr content));
               ("timestamp", Some (JStr timestamp))]) in
    console (AnswerPreview (length content) (first100 content));;
    pushed ← push existingResults result;
    (* from here on the array holds the new entry *)
    try_catch
      (writeFile svc RESULTS_FILE (JSON_stringify pushed);;
       sleep DELAY_BETWEEN_QUESTIONS;;
       mret pushed)
      (λ msg, console (QuestionFailed (index + 1) msg);; mret pushed) in
  try_catch attempt
    (λ msg, console (QuestionFailed (index + 1) msg);; mret existingResults) w.

Definition processQuestions : M unit :=
  initResultsFile;;
  _ ← checkOllama;
  questions ← readJson QUESTIONS_FILE;
  existingResults ← readJson RESULTS_FILE;
  items ← entries questions;
  _ ← for_entries (askQuestion (length items)) 0 existingResults items;
  mret tt.

(** The script: [processQuestions().catch(console.error)], and the exit
    code of the process. *)
Definition main : M unit :=
  try_catch processQuestions (λ msg, console (Uncaught msg)).

Definition exit_code (w : World) : Z :=
  match main w with
  | (Exit code, _) => code
  | _ => 0
  end.

Definition final (w : World) : World := (main w).2.

End WithService.

(** *** What a run shows *)

Definition ping : Event :=
  EvChat MODEL_NAME (Some (JStr (lit "ping"))) (Some 5000).

(** The chat requests among some events. *)
Definition chat_requests (evs : list Event) : list Event :=
  List.filter (λ e, match e with EvChat _ _ _ => true | _ => false end) evs.

(** The numbers of the questions reported as failed among some events. *)
Definition failed_questions (evs : list Event) : list nat :=
  omap (λ e, match e with EvLog (QuestionFailed n _) => Some n | _ => None end)
       evs.

(** How many answers were received (and previewed) among some events. *)
Definition answers (evs : list Event) : nat :=
  length (List.filter
            (λ e, match e with EvLog (AnswerPreview _ _) => true | _ => false end)
            evs).

(** The questions file cannot be used: it is missing, it does not parse,
    or it parses to something that is not an array. *)
Definition questions_unusable (files : gmap string file) : Prop :=
  match files !! QUESTIONS_FILE with
  | None | Some FileGarbage => True
  | Some (FileJson (JArr _)) => False
  | Some (FileJson _) => True
  end.

(** The entries that results.json holds when the run starts. *)
Definition entries_at_start (files : gmap string file) : list json :=
  match files !! RESULTS_FILE with
  | Some (FileJson (JArr items)) => items
  | _ => []
  end.

(** results.json can be read when the run starts: it holds JSON, or it is
    absent and can be created. *)
Definition results_ready (svc : Service) (files : gmap string file) : Prop :=
  match files !! RESULTS_FILE with
  | Some (FileJson _) => True
  | Some FileGarbage => False
  | None => write_error svc [] RESULTS_FILE (FileJson (JArr [])) = None
  end.

(** The files and the history once results.json has been made ready. *)
Definition ready (files : gmap string file) : World :=
  match files !! RESULTS_FILE with
  | Some _ => initial files
  | None =>
      {| fs := <[RESULTS_FILE := FileJson (JArr [])]> files;
         events := [EvWrite RESULTS_FILE (FileJson (JArr []))] |}
  end.

(** The write that creates results.json, when it has to be created. *)
Definition init_events (files : gmap string file) : list Event :=
  match files !! RESULTS_FILE with
  | Some _ => []
  | None => [EvWrite RESULTS_FILE (FileJson (JArr []))]
  end.

(** The entries of questions.json when the run starts, if it holds an
    array. *)
Definition questions_at_start (files : gmap string file) : list json :=
  match files !! QUESTIONS_FILE with
  | Some (FileJson (JArr items)) => items
  | _ => []
  end.

(** The entry that [processQuestions] builds for the question [q] answered
    with [content] at the time [timestamp]. *)
Definition resultFor (q : json) (content timestamp : jsstring) : json :=
  JObj (object_literal
          [("id", own q "id"); ("question", own q "english");
           ("answer", Some (JStr content));
           ("timestamp", Some (JStr timestamp))]).

(** The entry that a history (newest event first) shows as just produced:
    it ends with the line of a question, the request made for it, the
    reading of the clock and the preview of the answer; the entry is the
    one of that question, with the reply that the service gave to that
    request and the time that the clock gave. *)
Definition last_answer (svc : Service) (questions : list json)
    (h : list Event) : option json :=
  match h with
  | EvLog (AnswerPreview _ _) :: EvNow :: EvChat model english timeout
    :: EvLog (AskingQuestion number total shown) :: older =>
      let asked := EvLog (AskingQuestion number total shown) :: older in
      match questions !! (number - 1)%nat,
            chat_reply svc asked model english timeout with
      | Some q, inl content =>
          Some (resultFor q content
                  (now_iso svc (EvChat model english timeout :: asked)))
      | _, _ => None
      end
  | _ => None
  end.

(** The writes among the events [seg] (newest first) of a stretch of the
    loop over [questions] that started after the events [old] with the
    array [base] and produced the entries [produced]: each one is of
    results.json, comes after an answer, and holds, as [JSON.stringify]
    writes them, [base] followed by the entries produced until then, the
    last of which is the entry of the answer just received. *)
Definition appended (svc : Service) (questions : list json)
    (old : list Event) (base : list json) (seg : list Event)
    (produced : list json) : Prop :=
  answers seg = length produced
  ∧ ∀ later path data earlier,
      seg = later ++ EvWrite path data :: earlier →
      path = RESULTS_FILE
      ∧ (1 ≤ answers earlier)%nat
      ∧ data = JSON_stringify (JArr (base ++ take (answers earlier) produced))
      ∧ produced !! (answers earlier - 1)%nat
        = last_answer svc questions (earlier ++ old).

End AskOllama.

(** ** mumbai_llm_test.js: every model, every question in two languages *)

Module MumbaiTest.

Definition MODELS : list string :=
  ["llama3"; "mistral"; "phi3"; "gemma:7b"; "neural-chat"].

(** [path.join(dir, name)] for a file name without separators. *)
Definition path_join (dir name : string) : string := dir +:+ "/" +:+ name.

(** A loop [for (const x of l)], threading the loop state. *)
Definition for_of {A St} (body : St → A → M St) (s : St) (l : list A) : M St :=
  for_entries (λ s _ x, body s x) 0 s l.

(** The id of a question as the scorer sees it.  [scoreAnswer] only asks
    whether [questionId === 1] and whether [questionId === 12]: the Number
    1, the Number 12, and every other value (other Numbers, strings,
    [undefined], ...), which stands with the ids that have no bonus. *)
Definition scored_id (id : option json) : Z :=
  match id with
  | Some (JNum x) =>
      if PrimFloat.eqb x 1 then 1 else if PrimFloat.eqb x 12 then 12 else 0
  | _ => 0
  end.

(** The object recorded for one language of one question. *)
Definition answerRecord (question : option json) (answer : jsstring)
    (time_sec : float) (score : Z) : json :=
  JObj (object_literal
          [("question", question);
           ("answer", Some (JStr answer));
           ("time_sec", Some (JNum time_sec));
           ("chars", Some (JNum (Number_of_nat (length answer))));
           ("score", Some (JNum (Number_of_Z score)))]).

Definition resultEntry (id category : option json) (en hi : json) : json :=
  JObj (object_literal
          [("id", id); ("category", category);
           ("english", Some en); ("hindi", Some hi)]).

Definition errorEntry (id : option json) (msg : string) : json :=
  JObj (object_literal [("id", id); ("error", Some (JStr (lit msg)))]).

Definition resultsFileName (model : string) : string :=
  model +:+ "_results.json".

(** What happened to one question of one model: both calls answered (the
    texts and the measured times), or a call failed with a message. *)
Inductive QuestionResult :=
| Answered (resEN resHI : jsstring) (timeEN timeHI : float)
| Failed (msg : string).

Section WithEnvironment.

Variable rt : Runtime.
Variable svc : Service.
Variable RESULTS_DIR : string.

(** What the module read from questions.json when it was loaded, before
    [runTests] is called: any JSON value. *)
Variable QUESTIONS : json.

Definition scoreAnswer (answer : jsstring) (questionId : option json) : Z :=
  Scorer.scoreAnswer (toLowerCase rt) answer (scored_id questionId).

Definition isModelAvailable (model : string) : M bool :=
  try_catch
    (names ← ollama_list svc;
     mret (existsb (String.prefix model) names))
    (λ _, mret false).

(** The state of the loop over the questions of one model. *)
Definition LoopState : Type := list json * float.

(** [(Date.now() - start) / 1000] *)
Definition seconds (start stop : Z) : float :=
  PrimFloat.div (PrimFloat.sub (Number_of_Z stop) (Number_of_Z start))
    (Number_of_Z 1000).

(** One turn of the loop over the questions.  The handler of the [catch]
    reads [q.id], which raises again when [q] is [null]: that error leaves
    the loop. *)
Definition testQuestion (model : string) (st : LoopState) (index : nat)
    (q : json) : M LoopState :=
  let '(modelResults, totalScore) := st in
  st' ← try_catch
    (startEN ← Date_now svc;
     promptEN ← property q "english";
     resEN ← chat svc model promptEN None;
     stopEN ← Date_now svc;
     let timeEN := seconds startEN stopEN in
     idEN ← property q "id";
     let scoreEN := scoreAnswer resEN idEN in
     sleep 1000;;
     startHI ← Date_now svc;
     promptHI ← property q "hindi";
     resHI ← chat svc model promptHI None;
     stopHI ← Date_now svc;
     let timeHI := seconds startHI stopHI in
     idHI ← property q "id";
     let scoreHI := scoreAnswer resHI idHI in
     id ← property q "id";
     category ← property q "category";
     questionEN ← property q "english";
     questionHI ← property q "hindi";
     mret (modelResults
             ++ [resultEntry id category
                   (answerRecord questionEN resEN timeEN scoreEN)
                   (answerRecord questionHI resHI timeHI scoreHI)],
           PrimFloat.add totalScore
             (PrimFloat.div (Number_of_Z (scoreEN + scoreHI)) (Number_of_Z 2))))
    (λ msg,
       id ← property q "id";
       shown ← property q "id";
       console (QFailed shown msg);;
       mret (modelResults ++ [errorEntry id msg], totalScore));
  console (BarUpdate (index + 1));;
  sleep 1500;;
  mret st'.

(** The summary of a model; [count] is [QUESTIONS.length]. *)
Definition modelSummary (count : nat) (model : string) (totalScore : float)
  : json :=
  JObj [("avg_score",
         JStr (toFixed1 rt (PrimFloat.div totalScore (Number_of_nat count))));
        ("total_questions", JNum (Number_of_nat count));
        ("details_file", JStr (lit (resultsFileName model)))].

(** One turn of the loop over [MODELS]; the loop state is the object
    [finalReport.models].  Past the loop over the questions [QUESTIONS] is
    the array [items]. *)
Definition testModel (models : list (string * json)) (model : string)
  : M (list (string * json)) :=
  console (Testing model);;
  available ← isModelAvailable model;
  if negb available then
    console (ModelNotFound model);;
    mret models
  else
    total ← length_of QUESTIONS;
    console (BarStart total);;
    items ← entries QUESTIONS;
    '(modelResults, totalScore) ←
      for_entries (testQuestion model) 0 ([], PrimFloat.zero) items;
    console BarStop;;
    let resultPath := path_join RESULTS_DIR (resultsFileName model) in
    writeFile svc resultPath (JSON_stringify (JArr modelResults));;
    mret (obj_set model (modelSummary (length items) model totalScore) models).

(** *** The report of a model, in terms of what happened to its questions *)

Definition recordedEntry (q : json) (r : QuestionResult) : json :=
  match r with
  | Answered resEN resHI timeEN timeHI =>
      resultEntry (own q "id") (own q "category")
        (answerRecord (own q "english") resEN timeEN
           (scoreAnswer resEN (own q "id")))
        (answerRecord (own q "hindi") resHI timeHI
           (scoreAnswer resHI (own q "id")))
  | Failed msg => errorEntry (own q "id") msg
  end.

Definition recordedEntries (qs : list json) (rs : list QuestionResult)
  : list json := zip_with recordedEntry qs rs.

(** [(scoreEN + scoreHI) / 2] of an answered question. *)
Definition half_sum (q : json) (resEN resHI : jsstring) : float :=
  PrimFloat.div
    (Number_of_Z (scoreAnswer resEN (own q "id")
                  + scoreAnswer resHI (own q "id")))
    (Number_of_Z 2).

(** The numerator of the mean: a question that failed adds nothing. *)
Definition add_result (total : float) (qr : json * QuestionResult) : float :=
  match qr.2 with
  | Answered resEN resHI _ _ => PrimFloat.add total (half_sum qr.1 resEN resHI)
  | Failed _ => total
  end.

Definition sum_scores (qs : list json) (rs : list QuestionResult) : float :=
  fold_left add_result (zip qs rs) PrimFloat.zero.

(** The mean over all the questions, failed ones counted in the
    denominator. *)
Definition mean_score (qs : list json) (rs : list QuestionResult) : float :=
  PrimFloat.div (sum_scores qs rs) (Number_of_nat (length qs)).

(** The summary of a model as the specification describes it: [avg_score]
    a number. *)
Definition summary_as_specified (qs : list json) (model : string)
    (rs : list QuestionResult) : json :=
  JObj [("avg_score", JNum (mean_score qs rs));
        ("total_questions", JNum (Number_of_nat (length qs)));
        ("details_file", JStr (lit (resultsFileName model)))].

(** The summary as the code builds it: [avg_score] the text that
    [toFixed(1)] gives for the mean, a string. *)
Definition summary_as_built (qs : list json) (model : string)
    (rs : list QuestionResult) : json :=
  JObj [("avg_score", JStr (toFixed1 rt (mean_score qs rs)));
        ("total_questions", JNum (Number_of_nat (length qs)));
        ("details_file", JStr (lit (resultsFileName model)))].

Definition resultPath (model : string) : string :=
  path_join RESULTS_DIR (resultsFileName model).

(** Whether the list of installed models, asked for at history [h], has an
    entry that starts with [model]. *)
Definition listed (h : list Event) (model : string) : bool :=
  match list_reply svc h with
  | inl names => existsb (String.prefix model) names
  | inr _ => false
  end.

(** [QUESTIONS] makes the turn of an installed model raise: it is not an
    array, or it is an array with a [null] in it. *)
Definition questions_raise : Prop :=
  match QUESTIONS with
  | JArr items => JNull ∈ items
  | _ => True
  end.

(** *** The shape of a run, event by event (newest first) *)

(** What the loop over the questions of [model] does: chat requests for
    that model, pauses, clock readings, progress and failure lines. *)
Definition question_event (model : string) (e : Event) : Prop :=
  match e with
  | EvChat m _ _ => m = model
  | EvSleep _ | EvNow => True
  | EvLog (BarUpdate _) | EvLog (QFailed _ _) => True
  | _ => False
  end.

(** What the turn of [model] does before it writes the file of the model:
    the announcement, the query for the installed models, the start of the
    progress bar and the events of the loop over the questions. *)
Definition turn_event (model : string) (e : Event) : Prop :=
  match e with
  | EvChat m _ _ => m = model
  | EvSleep _ | EvNow | EvList => True
  | EvLog (BarUpdate _) | EvLog (QFailed _ _) | EvLog (BarStart _) => True
  | EvLog (Testing m) => m = model
  | _ => False
  end.

(** The progress shown among some events: the numbers of the questions
    done, as [bar.update] receives them. *)
Definition progress (evs : list Event) : list nat :=
  omap (λ e, match e with EvLog (BarUpdate k) => Some k | _ => None end) evs.

(** The turn of a model that is not installed. *)
Definition skip_events (model : string) : list Event :=
  [EvLog (ModelNotFound model); EvList; EvLog (Testing model)].

(** The turn of a model that is tested on the questions [qs], up to the
    write of its file; [loop] are the events of the loop over the
    questions. *)
Definition turn_events (qs : list json) (model : string) (loop : list Event)
  : list Event :=
  EvLog BarStop
  :: loop ++ [EvLog (BarStart (Some (JNum (Number_of_nat (length qs)))));
              EvList; EvLog (Testing model)].

Definition resultsData (qs : list json) (rs : list QuestionResult) : file :=
  JSON_stringify (JArr (recordedEntries qs rs)).

(** The history of a run in which every model so far was skipped. *)
Definition all_skipped (ms : list string) : list Event :=
  concat (map skip_events (rev ms)) ++ [EvNow].

(** The turn of [model] after the events [older]: the model is not listed
    and is skipped, or it is listed, [QUESTIONS] is an array, all its
    entries are gone through and the file of the model is written. *)
Inductive turn (older : list Event) (model : string) : list Event → Prop :=
| turn_skipped :
    listed (EvLog (Testing model) :: older) model = false →
    turn older model (skip_events model)
| turn_tested qs rs loop :
    listed (EvLog (Testing model) :: older) model = true →
    QUESTIONS = JArr qs →
    Forall (λ q, q ≠ JNull) qs →
    length rs = length qs →
    Forall (question_event model) loop →
    progress (rev loop) = seq 1 (length qs) →
    turn older model (EvWrite (resultPath model) (resultsData qs rs)
                      :: turn_events qs model loop).

(** The events of the turns of the models [done], in that order. *)
Inductive turns : list string → list Event → Prop :=
| turns_nil : turns [] [EvNow]   (* the start time is read *)
| turns_snoc done evs model seg :
    turns done evs → turn evs model seg → turns (done ++ [model]) (seg ++ evs).

(** An event that names a model (a chat request, the write of a result
    file, the announcement of a model, the warning for a missing model)
    names [model]. *)
Definition owned_by (model : string) (e : Event) : Prop :=
  match e with
  | EvChat m _ _ => m = model
  | EvWrite path _ => path = resultPath model
  | EvLog (ModelNotFound m) => m = model
  | EvLog (Testing m) => m = model
  | _ => True
  end.

(** Every write of the history went through. *)
Definition writes_succeeded (evs : list Event) : Prop :=
  ∀ later path data earlier,
    evs = later ++ EvWrite path data :: earlier →
    write_error svc earlier path data = None.

(** Every summary of [finalReport.models] belongs to a model whose file was
    written, and is built from what that file records. *)
Definition summaries_recorded (models : list (string * json))
    (evs : list Event) : Prop :=
  ∀ model summary,
    field model models = Some summary →
    ∃ qs rs, QUESTIONS = JArr qs
             ∧ length rs = length qs
             ∧ EvWrite (resultPath model) (resultsData qs rs) ∈ evs
             ∧ summary = summary_as_built qs model rs.

(** Every result file written has its summary in [finalReport.models]. *)
Definition files_summarised (models : list (string * json))
    (evs : list Event) : Prop :=
  ∀ model data,
    EvWrite (resultPath model) data ∈ evs → is_Some (field model models).

(** What ends the loop over the models [ms] early, first way: the write of
    a result file that failed, after the turns of the models [done]. *)
Definition write_failed (ms : list string) (msg : string) (w : World) : Prop :=
  ∃ done path data earlier,
    NoDup done ∧ (∀ m, m ∈ done → m ∈ ms)
    ∧ turns done (events w)
    ∧ events w = EvWrite path data :: earlier
    ∧ write_error svc earlier path data = Some msg
    ∧ writes_succeeded earlier.

(** Second way: [QUESTIONS] made the turn of an installed model raise,
    after the turns of the models [done]; [part] are the events of the
    turn that was cut short. *)
Definition questions_raised (ms : list string) (w : World) : Prop :=
  ∃ done model part evs,
    NoDup (done ++ [model]) ∧ (∀ m, m ∈ done ++ [model] → m ∈ ms)
    ∧ turns done evs
    ∧ events w = part ++ evs
    ∧ Forall (turn_event model) part
    ∧ writes_succeeded evs
    ∧ questions_raise.

Definition finalReport (start_time : jsstring) (models : list (string * json))
    (end_time : jsstring) : json :=
  JObj [("start_time", JStr start_time);
        ("models", JObj models);
        ("end_time", JStr end_time)].

Definition finalReportPath : string := path_join RESULTS_DIR "final_report.json".

(** The models mapping of a report, read off what was written. *)
Definition report_models (data : file) : list (string * json) :=
  match data with
  | FileJson (JObj fields) =>
      match field "models" fields with
      | Some (JObj models) => models
      | _ => []
      end
  | _ => []
  end.

Definition runTestsOn (model_names : list string) : M unit :=
  start_time ← Date_toISOString svc;
  models ← for_of testModel [] model_names;
  end_time ← Date_toISOString svc;
  writeFile svc finalReportPath
    (JSON_stringify (finalReport start_time models end_time));;
  console AllComplete.

Definition runTests : M unit := runTestsOn MODELS.

(** The script: [runTests().catch(err => console.error(...))]. *)
Definition main : M unit :=
  try_catch runTests (λ msg, console (UnexpectedError msg)).

Definition final (w : World) : World := (main w).2.

End WithEnvironment.

End MumbaiTest.

(** ** Concrete runtimes, services and inputs used in the examples *)

Module Examples.

Definition decimal (n : N) : jsstring :=
  lit (DecimalString.NilZero.string_of_uint (N.to_uint n)).

(** [x.toFixed(1)] for NaN, the infinities and every finite [x] below
    10^21 in magnitude (from there on the language switches to exponent
    notation, which this function does not): the integer [n] for which
    [n / 10] is nearest to [x], the larger one on a tie, written with its
    last digit after the point. *)
Definition toFixed1_finite (x : float) : jsstring :=
  let fixed (negative : bool) (n : Z) :=
    (if negative then lit "-" else [])
    ++ decimal (Z.to_N (n / 10)) ++ lit "." ++ decimal (Z.to_N (n mod 10)) in
  match Prim2SF x with
  | S754_nan => lit "NaN"
  | S754_infinity false => lit "Infinity"
  | S754_infinity true => lit "-Infinity"
  | S754_zero _ => fixed false 0
  | S754_finite s m e =>
      fixed s (if 0 <=? e then 10 * Z.pos m * 2 ^ e
               else (20 * Z.pos m + 2 ^ (- e)) / 2 ^ (1 - e))
  end.

Definition runtime : Runtime :=
  {| toLowerCase := Scorer.ascii_toLowerCase; toFixed1 := toFixed1_finite |}.

(** [c.repeat(n)] for a string of one code unit. *)
Definition repeat_unit (c : N) (n : nat) : jsstring := repeat c n.

(** 101 one-letter words, each followed by a line feed. *)
Definition words_on_lines : jsstring := concat (repeat (lit "a" ++ [10%N]) 101).

(** 100 spaces and nothing else. *)
Definition hundred_spaces : jsstring := repeat_unit SPACE 100.


(** *** A batch run *)

Definition neutral_answer : jsstring :=
  lit "Mumbai is a large city on the west coast of India, by the sea.".

Definition sorry_answer : jsstring :=
  lit "I am sorry, this is a question that I cannot answer properly.".

Definition demo_items : list json :=
  [ JObj [("id", JNum 1); ("category", JStr (lit "food"));
          ("english", JStr (lit "Which snack is Mumbai known for?"));
          ("hindi", JStr [2350; 2369; 2306; 2348; 2312]%N)];
    JObj [("id", JNum 12); ("category", JStr (lit "economy"));
          ("english", JStr (lit "Why is Mumbai important?"));
          ("hindi", JStr [2325; 2381; 2351; 2379; 2306]%N)] ].

Definition demo_questions : json := JArr demo_items.

(** A service that has two of the five models, answers every request (with
    an apology when the prompt starts with U+0915), and never fails. *)
Definition demo_service : Service :=
  {| chat_reply := λ _ _ content _,
       match content with
       | Some (JStr (2325 :: _)%N) => inl sorry_answer
       | _ => inl neutral_answer
       end;
     list_reply := λ _, inl ["llama3:latest"; "phi3:mini"]%string;
     write_error := λ _ _ _, None;
     now_ms := λ h, 1000 * Z.of_nat (length h);
     now_iso := λ _, lit "2024-01-01T00:00:00.000Z" |}.

Definition demo_dir : string := "mumbai_llm_results".

Definition demo_final : World :=
  MumbaiTest.final runtime demo_service demo_dir demo_questions (initial ∅).

(** The same service on a disk where the result file of llama3 cannot be
    written; all five models are installed. *)
Definition readonly_service : Service :=
  {| chat_reply := chat_reply demo_service;
     list_reply := λ _, inl MumbaiTest.MODELS;
     write_error := λ _ path _,
       if String.eqb path (MumbaiTest.resultPath demo_dir "llama3")
       then Some "EACCES: permission denied"%string else None;
     now_ms := now_ms demo_service;
     now_iso := now_iso demo_service |}.

Definition readonly_final : World :=
  MumbaiTest.final runtime readonly_service demo_dir demo_questions (initial ∅).

(** A service that cannot be reached. *)
Definition down_service : Service :=
  {| chat_reply := λ _ _ _ _, inr "ECONNREFUSED"%string;
     list_reply := λ _, inr "ECONNREFUSED"%string;
     write_error := λ _ _ _, None;
     now_ms := λ _, 0;
     now_iso := λ _, lit "2024-01-01T00:00:00.000Z" |}.

(** The events before the first write of a trace, the write, and the events
    after it. *)
Fixpoint before_write (tr : list Event) : list Event :=
  match tr with
  | [] => []
  | EvWrite _ _ :: _ => []
  | e :: tr' => e :: before_write tr'
  end.

Fixpoint first_write (tr : list Event) : string * file :=
  match tr with
  | [] => (""%string, FileGarbage)
  | EvWrite path data :: _ => (path, data)
  | _ :: tr' => first_write tr'
  end.

Fixpoint after_write (tr : list Event) : list Event :=
  match tr with
  | [] => []
  | EvWrite _ _ :: tr' => tr'
  | _ :: tr' => after_write tr'
  end.

(** The summary of a model in the final report that a run left on disk,
    and its [avg_score]. *)
Definition reported_summary (dir : string) (w : World) (model : string)
  : option json :=
  match fs w !! MumbaiTest.finalReportPath dir with
  | Some (FileJson (JObj report)) =>
      match field "models" report with
      | Some (JObj models) => field model models
      | _ => None
      end
  | _ => None
  end.

Definition avg_score (summary : json) : option json :=
  match summary with
  | JObj fields => field "avg_score" fields
  | _ => None
  end.

(** The models mapping of the newest final report among some events. *)
Fixpoint reported_models (evs : list Event) : list (string * json) :=
  match evs with
  | [] => []
  | EvWrite _ (FileJson (JObj [_; (_, JObj models); _])) :: _ => models
  | _ :: evs' => reported_models evs'
  end.

(** What the newest write to [path] among some events carried. *)
Fixpoint written_at (path : string) (evs : list Event) : file :=
  match evs with
  | [] => FileGarbage
  | EvWrite p data :: evs' =>
      if String.eqb p path then data else written_at path evs'
  | _ :: evs' => written_at path evs'
  end.

(** The events before the announcement of [model] in a trace. *)
Fixpoint before_testing (model : string) (tr : list Event) : list Event :=
  match tr with
  | [] => []
  | EvLog (Testing m) :: tr' =>
      if String.eqb m model then []
      else EvLog (Testing m) :: before_testing model tr'
  | e :: tr' => e :: before_testing model tr'
  end.

Definition count_chats (model : string) (evs : list Event) : nat :=
  length (List.filter
            (λ e, match e with
                  | EvChat m _ _ => String.eqb m model
                  | _ => false
                  end) evs).

(** *** Runs of the single-model script *)

Definition two_items : list json :=
  [JObj [("id", JNum (Number_of_Z 1)); ("category", JStr (lit "food"));
         ("english", JStr (lit "Q1")); ("hindi", JStr [2325]%N)];
   JObj [("id", JNum (Number_of_Z 2)); ("category", JStr (lit "city"));
         ("english", JStr (lit "Q2")); ("hindi", JStr [2326]%N)]].

Definition two_questions : json := JArr two_items.

Definition questions_only : gmap string file :=
  {[ AskOllama.QUESTIONS_FILE := FileJson two_questions ]}.

(** A service that answers the connection check and fails every other
    request. *)
Definition ping_only_service : Service :=
  {| chat_reply := λ _ _ _ timeout,
       match timeout with
       | Some 5000 => inl (lit "pong")
       | _ => inr "timeout"%string
       end;
     list_reply := λ _, inl [];
     write_error := λ _ _ _, None;
     now_ms := λ _, 0;
     now_iso := λ _, lit "2024-01-01T00:00:00.000Z" |}.

(** A service that fails on the prompt "Q1" and answers everything
    else. *)
Definition first_fails_service : Service :=
  {| chat_reply := λ _ _ content _,
       match content with
       | Some (JStr [81; 49]%N) => inr "timeout"%string
       | _ => inl (lit "an answer")
       end;
     list_reply := λ _, inl [];
     write_error := λ _ _ _, None;
     now_ms := λ _, 0;
     now_iso := λ _, lit "2024-01-01T00:00:00.000Z" |}.

(** *** Inputs for the further properties *)

Definition short_apology : jsstring := lit "I am not sure, sorry about that.".

(** A disk with a results.json that does not parse. *)
Definition broken_results : gmap string file :=
  {[ AskOllama.RESULTS_FILE := FileGarbage ]}.

(** A disk with one more file, which no script knows. *)
Definition with_notes : gmap string file :=
  {[ "notes.txt"%string := FileGarbage ]}.

(** An entry of an earlier run. *)
Definition old_entry : json :=
  JObj [("id", JNum 7); ("question", JStr (lit "Q7"));
        ("answer", JStr (lit "an old answer"));
        ("timestamp", JStr (lit "2023-12-31T00:00:00.000Z"))].

(** The two questions and a results.json that holds that entry. *)
Definition second_run : gmap string file :=
  {[ AskOllama.QUESTIONS_FILE := FileJson two_questions;
     AskOllama.RESULTS_FILE := FileJson (JArr [old_entry]) ]}.

(** An entry whose id was written as [1e999], which [JSON.parse] reads as
    Infinity, and whose weight was written as [-0]. *)
Definition odd_entry : json :=
  JObj [("id", JNum infinity); ("question", JStr (lit "Q0"));
        ("weight", JNum neg_zero)].

Definition odd_results : gmap string file :=
  {[ AskOllama.QUESTIONS_FILE := FileJson two_questions;
     AskOllama.RESULTS_FILE := FileJson (JArr [odd_entry]) ]}.

(** The first entry of results.json in a world. *)
Definition first_entry (w : World) : option json :=
  match fs w !! AskOllama.RESULTS_FILE with
  | Some (FileJson (JArr (e :: _))) => Some e
  | _ => None
  end.

(** A questions file with a hole: the second of three entries is
    [null]. *)
Definition holed_questions : json :=
  JArr [JObj [("id", JNum 1); ("english", JStr (lit "Q1"));
              ("hindi", JStr [2325]%N)];
        JNull;
        JObj [("id", JNum 3); ("english", JStr (lit "Q3"));
              ("hindi", JStr [2326]%N)]].

End Examples.

(** ** Further observations on strings and runs *)

(** [pieces.join(sep)] for a separator of one code unit. *)
Fixpoint join (pieces : list jsstring) (sep : N) : jsstring :=
  match pieces with
  | [] => []
  | [piece] => piece
  | piece :: rest => piece ++ sep :: join rest sep
  end.

(** The answer holds an apology: "sorry" or "not sure", as written. *)
Definition apologises (answer : jsstring) : bool :=
  includes answer (lit "sorry") || includes answer (lit "not sure").


(** The models announced as being tested among some events. *)
Definition tested (evs : list Event) : list string :=
  omap (λ e, match e with EvLog (Testing m) => Some m | _ => None end) evs.

(** The chat request that [processQuestions] makes for an entry of the
    questions file: none for [null], whose [english] cannot be read. *)
Definition request_for (q : json) : list Event :=
  match q with
  | JNull => []
  | _ => [EvChat AskOllama.MODEL_NAME (own q "english") (Some 30000)]
  end.



(** ** Proof automation *)

(** Unfolds the primitives of the monad and runs them on the world. *)
Ltac run_monad :=
  unfold mbind, M_bind, try_catch, chat, ollama_list, writeFile, Date_now,
    Date_toISOString, sleep, console, perform, throw, process_exit, mret,
    M_ret, emit;
  cbn [events fs fst snd].

(** No write occurs in a list of events that is given explicitly. *)
Ltac no_write_in_list :=
  let H := fresh in
  intros ? ? H; rewrite ?elem_of_cons, elem_of_nil in H;
  repeat (destruct H as [H|H]; [done|]); done.

(** * Properties *)

(** ** The scorer *)

Lemma length_split_from (sep : N) (s cur : jsstring) :
  length (split_from sep cur s) = S (length (filter (λ c, c = sep) s)).
Proof.
  revert cur. induction s as [|c s IH]; intros cur; [done|].
  cbn [split_from]. destruct (N.eqb_spec c sep) as [->|Hne].
  - rewrite filter_cons_True by done. cbn [length]. by rewrite IH.
  - rewrite filter_cons_False by done. apply IH.
Qed.

Lemma length_split_spaces (a : jsstring) :
  length (split a SPACE) = S (Scorer.count_spaces a).
Proof. apply length_split_from. Qed.

Lemma max_min_clamp (x : Z) : Z.max 0 (Z.min 100 x) = Scorer.clamp 0 100 x.
Proof.
  unfold Scorer.clamp.
  destruct (Z.ltb_spec x 0), (Z.ltb_spec 100 x); lia.
Qed.

(** C1, as the code has it: for every answer and question id, the score is
    the reference algorithm of section 4.3 applied step by step, its fifth
    step being "add 5 if the answer holds at least 100 U+0020 code units"
    (the answer cut at every single space gives more than 100 pieces). *)
Theorem scoreAnswer_reference_spaces (lower : jsstring → jsstring)
    (a : jsstring) (questionId : Z) :
  Scorer.scoreAnswer lower a questionId
  = Scorer.score_reference_spaces lower a questionId.
Proof.
  unfold Scorer.scoreAnswer, Scorer.score_reference_spaces.
  rewrite max_min_clamp, length_split_spaces. f_equal.
  replace (100 <? Z.of_nat (S (Scorer.count_spaces a)))
    with (100 <=? Z.of_nat (Scorer.count_spaces a))
    by (destruct (Z.leb_spec 100 (Z.of_nat (Scorer.count_spaces a))),
          (Z.ltb_spec 100 (Z.of_nat (S (Scorer.count_spaces a)))); lia).
  unfold Scorer.step.
  repeat match goal with |- context [if ?b then _ else _] => destruct b end;
    lia.
Qed.

(** C1 as stated fails: 101 words, one per line, are more than 100
    white-space delimited words, yet the code finds a single piece and
    gives no bonus. *)
Lemma scoreAnswer_not_word_count :
  Scorer.scoreAnswer Scorer.ascii_toLowerCase Examples.words_on_lines 2 = 50
  ∧ Scorer.score_reference Scorer.ascii_toLowerCase Examples.words_on_lines 2 = 55
  ∧ Scorer.word_count Examples.words_on_lines = 101%nat
  ∧ length (split Examples.words_on_lines SPACE) = 1%nat.
Proof. vm_compute. done. Qed.

(** The other way round: 100 spaces hold no word at all, yet the code finds
    101 pieces and gives the bonus. *)
Example scoreAnswer_spaces_only :
  Scorer.scoreAnswer Scorer.ascii_toLowerCase Examples.hundred_spaces 2 = 55
  ∧ Scorer.score_reference Scorer.ascii_toLowerCase Examples.hundred_spaces 2 = 50.
Proof. vm_compute. done. Qed.

(** The worked examples of section 8. *)
Example scoreAnswer_empty :
  Scorer.scoreAnswer Scorer.ascii_toLowerCase [] 1 = 30.
Proof. reflexivity. Qed.

Example scoreAnswer_long :
  Scorer.scoreAnswer Scorer.ascii_toLowerCase (Examples.repeat_unit 120 600) 2 = 60.
Proof. vm_compute. reflexivity. Qed.

Example scoreAnswer_vada_pav :
  Scorer.scoreAnswer Scorer.ascii_toLowerCase
    (lit "Vada Pav is the snack of the city, sold at every station.") 1 = 70.
Proof. vm_compute. reflexivity. Qed.
(** ** File names *)

Lemma string_length_app (s1 s2 : string) :
  String.length (s1 +:+ s2) = (String.length s1 + String.length s2)%nat.
Proof. induction s1 as [|c s1 IH]; [done|]. simpl. by f_equal. Qed.

Lemma string_app_inj_r (s s1 s2 : string) : s1 +:+ s = s2 +:+ s → s1 = s2.
Proof.
  revert s2. induction s1 as [|c1 s1 IH]; intros [|c2 s2] H; simpl in H.
  - done.
  - apply (f_equal String.length) in H. simpl in H.
    rewrite !string_length_app in H. simpl in H. lia.
  - apply (f_equal String.length) in H. simpl in H.
    rewrite !string_length_app in H. simpl in H. lia.
  - injection H as -> H. f_equal. by apply IH.
Qed.

Lemma resultsFileName_inj (m1 m2 : string) :
  MumbaiTest.resultsFileName m1 = MumbaiTest.resultsFileName m2 → m1 = m2.
Proof. apply string_app_inj_r. Qed.

Lemma resultPath_inj (dir m1 m2 : string) :
  MumbaiTest.resultPath dir m1 = MumbaiTest.resultPath dir m2 → m1 = m2.
Proof.
  unfold MumbaiTest.resultPath, MumbaiTest.path_join. intros H.
  apply String.app_inj in H. apply String.app_inj in H.
  by apply resultsFileName_inj.
Qed.

(** No model has "final_report.json" for its result file. *)
Lemma resultPath_not_final (dir m : string) :
  MumbaiTest.resultPath dir m ≠ MumbaiTest.finalReportPath dir.
Proof.
  unfold MumbaiTest.resultPath, MumbaiTest.finalReportPath,
    MumbaiTest.path_join. intros H.
  apply String.app_inj in H. apply String.app_inj in H.
  unfold MumbaiTest.resultsFileName in H.
  destruct m as [|a1 [|a2 [|a3 [|a4 [|a5 m]]]]]; simpl in H; try discriminate.
  injection H as _ _ _ _ _ H.
  apply (f_equal String.length) in H. rewrite string_length_app in H.
  simpl in H. lia.
Qed.
(** ** JSON values as written *)

Lemma json_induction (P : json → Prop) :
  P JNull → (∀ b, P (JBool b)) → (∀ x, P (JNum x)) → (∀ s, P (JStr s)) →
  (∀ items, Forall P items → P (JArr items)) →
  (∀ fields, Forall (λ kv, P kv.2) fields → P (JObj fields)) →
  ∀ v, P v.
Proof.
  intros Hnull Hbool Hnum Hstr Harr Hobj.
  fix IH 1. intros [|b|x|s|items|fields]; [done..| |].
  - apply Harr. induction items as [|v items IHitems]; constructor;
      [apply IH|done].
  - apply Hobj. induction fields as [|[k v] fields IHfields]; constructor;
      [apply IH|done].
Qed.

Lemma printed_number x : printed (printed (JNum x)) = printed (JNum x).
Proof.
  cbn [printed].
  destruct (PrimFloat.is_nan x || PrimFloat.is_infinity x) eqn:Hspecial; [done|].
  destruct (PrimFloat.is_zero x) eqn:Hzero; [done|].
  cbn [printed]. by rewrite Hspecial, Hzero.
Qed.

(** What [JSON.stringify] writes is written back unchanged. *)
Lemma printed_stable v : stable (printed v).
Proof.
  unfold stable.
  induction v as [|b|x|s|items IH|fields IH] using json_induction.
  - done.
  - done.
  - apply printed_number.
  - done.
  - cbn [printed]. f_equal. rewrite map_map. by apply map_ext_Forall.
  - cbn [printed]. f_equal. rewrite map_map. apply map_ext_Forall.
    eapply Forall_impl; [done|]. intros [k v] H. cbn in *. by f_equal.
Qed.

Lemma printed_field k fields :
  field k (map (λ kv, (kv.1, printed kv.2)) fields) = printed <$> field k fields.
Proof.
  induction fields as [|[k' v] fields IH]; [done|].
  cbn. by destruct (String.eqb k k').
Qed.

Lemma printed_keys (fields : list (string * json)) :
  map fst (map (λ kv, (kv.1, printed kv.2)) fields) = map fst fields.
Proof. rewrite map_map. by apply map_ext. Qed.

Lemma stable_entries (items : list json) :
  Forall stable items → map printed items = items.
Proof.
  induction 1 as [|v items Hv _ IH]; [done|]. cbn. by rewrite Hv, IH.
Qed.
(** ** Loops and histories *)

(** The rule of the loop: an invariant of the turns, indexed by the entries
    already visited, holds at the end; a turn that raises or exits ends the
    loop there. *)
Lemma for_entries_rule {A St} (body : St → nat → A → M St)
    (I : list A → St → World → Prop) (T : string → World → Prop)
    (X : Z → World → Prop) (l : list A) :
  (∀ done x rest s w, l = done ++ x :: rest → I done s w →
     match body s (length done) x w with
     | (Ret s', w') => I (done ++ [x]) s' w'
     | (Throw msg, w') => T msg w'
     | (Exit c, w') => X c w'
     end) →
  ∀ s w, I [] s w →
    match for_entries body 0 s l w with
    | (Ret s', w') => I l s' w'
    | (Throw msg, w') => T msg w'
    | (Exit c, w') => X c w'
    end.
Proof.
  intros Hstep.
  enough (∀ rest done s w, l = done ++ rest → I done s w →
            match for_entries body (length done) s rest w with
            | (Ret s', w') => I l s' w'
            | (Throw msg, w') => T msg w'
            | (Exit c, w') => X c w'
            end) as H by (intros s w; apply (H l [] s w); done).
  induction rest as [|x rest IH]; intros done s w Hl HI.
  - cbn. rewrite app_nil_r in Hl. by subst.
  - cbn [for_entries]. unfold mbind, M_bind.
    specialize (Hstep done x rest s w Hl HI).
    destruct (body s (length done) x w) as [[s'|msg|c] w']; try done.
    specialize (IH (done ++ [x]) s' w').
    rewrite length_app, Nat.add_1_r in IH. apply IH; [|done].
    by rewrite <- app_assoc.
Qed.

(** Where an event of [l1 ++ l2] lies. *)
Lemma split_app_event {A} (l1 l2 later earlier : list A) (e : A) :
  l1 ++ l2 = later ++ e :: earlier →
  (∃ mid, l1 = later ++ e :: mid ∧ earlier = mid ++ l2)
  ∨ (∃ mid, later = l1 ++ mid ∧ l2 = mid ++ e :: earlier).
Proof.
  revert later. induction l1 as [|x l1 IH]; intros later H.
  - right. exists later. by cbn in *.
  - destruct later as [|y later]; cbn in H; injection H as -> H.
    + left. by exists l1.
    + destruct (IH later H) as [(mid & -> & ->)|(mid & -> & ->)].
      * left. by exists mid.
      * right. by exists mid.
Qed.

(** The events before and after an event of the trace, in terms of the
    history kept newest first. *)
Lemma trace_split w pre e post :
  trace w = pre ++ e :: post → events w = rev post ++ e :: rev pre.
Proof.
  unfold trace. intros H. apply (f_equal (@rev Event)) in H.
  rewrite rev_involutive in H. rewrite H, rev_app_distr. cbn.
  by rewrite <- app_assoc.
Qed.

Lemma elem_of_rev {A} (x : A) (l : list A) : x ∈ rev l ↔ x ∈ l.
Proof. rewrite !list_elem_of_In. symmetry. apply in_rev. Qed.

(** ** mumbai_llm_test.js *)

Section BatchRun.

Import MumbaiTest.

Variable rt : Runtime.
Variable svc : Service.
Variable dir : string.
Variable Q : json.

(** A question that is not [null] never makes its turn raise. *)
Lemma testQuestion_run model results total index q w :
  q ≠ JNull →
  ∃ r seg,
    testQuestion rt svc model (results, total) index q w
    = (Ret (results ++ [recordedEntry rt q r], add_result rt total (q, r)),
       {| fs := fs w; events := seg ++ events w |})
    ∧ Forall (question_event model) seg
    ∧ progress (rev seg) = [(index + 1)%nat].
Proof.
  intros Hq. unfold testQuestion.
  destruct q as [|b|x|s|items|fields]; [done|..]; unfold property; run_monad.
  all: destruct (chat_reply svc _ _ _ _) as [resEN|msg] eqn:HEN; cbn [events fs];
    [destruct (chat_reply svc _ _ _ _) as [resHI|msg] eqn:HHI in |- *;
       cbn [events fs]|].
  all: first
    [ eexists (Answered resEN resHI _ _), [_; _; _; _; _; _; _; _; _];
      split_and!; [reflexivity|repeat constructor|reflexivity]
    | eexists (Failed msg), [_; _; _; _; _; _; _; _; _];
      split_and!; [reflexivity|repeat constructor|reflexivity]
    | eexists (Failed msg), [_; _; _; _; _];
      split_and!; [reflexivity|repeat constructor|reflexivity] ].
Qed.

(** On [null] the turn raises: [q.english] cannot be read, and in the
    handler neither can [q.id]. *)
Lemma testQuestion_null model st index w :
  ∃ msg,
    testQuestion rt svc model st index JNull w
    = (Throw msg, {| fs := fs w; events := EvNow :: events w |}).
Proof. destruct st as [results total]. by eexists. Qed.

Lemma progress_app evs1 evs2 :
  progress (evs1 ++ evs2) = progress evs1 ++ progress evs2.
Proof. apply omap_app. Qed.

(** The loop over the questions of a model: it goes through all of them
    when none is [null], and raises at the first [null] otherwise. *)
Lemma questions_run model l w :
  match for_entries (testQuestion rt svc model) 0 ([], PrimFloat.zero) l w with
  | (Ret st, w') =>
      Forall (λ q, q ≠ JNull) l
      ∧ ∃ rs loop,
          length rs = length l
          ∧ st = (recordedEntries rt l rs, sum_scores rt l rs)
          ∧ w' = {| fs := fs w; events := loop ++ events w |}
          ∧ Forall (question_event model) loop
          ∧ progress (rev loop) = seq 1 (length l)
  | (Throw msg, w') =>
      JNull ∈ l
      ∧ ∃ loop,
          w' = {| fs := fs w; events := loop ++ events w |}
          ∧ Forall (question_event model) loop
  | (Exit _, _) => False
  end.
Proof.
  pose (I := λ (done : list json) (st : LoopState) (w' : World),
          Forall (λ q, q ≠ JNull) done
          ∧ ∃ rs loop,
            length rs = length done
            ∧ st = (recordedEntries rt done rs, sum_scores rt done rs)
            ∧ w' = {| fs := fs w; events := loop ++ events w |}
            ∧ Forall (question_event model) loop
            ∧ progress (rev loop) = seq 1 (length done)).
  pose (T := λ (_ : string) (w' : World),
          JNull ∈ l
          ∧ ∃ loop,
              w' = {| fs := fs w; events := loop ++ events w |}
              ∧ Forall (question_event model) loop).
  assert (Hstep : ∀ done q rest st w1, l = done ++ q :: rest → I done st w1 →
            match testQuestion rt svc model st (length done) q w1 with
            | (Ret st', w') => I (done ++ [q]) st' w'
            | (Throw msg, w') => T msg w'
            | (Exit _, _) => False
            end).
  { intros done q rest [results total] w1 Hl
      (Hdone & rs & loop & Hlen & Hst & -> & Hloop & Hbar).
    assert (Hcases : q = JNull ∨ q ≠ JNull) by (destruct q; auto).
    destruct Hcases as [->|Hq].
    - destruct (testQuestion_null model (results, total) (length done)
                  {| fs := fs w; events := loop ++ events w |}) as [msg ->].
      split.
      + rewrite Hl, elem_of_app, elem_of_cons. auto.
      + exists (EvNow :: loop). split; [done|]. by constructor.
    - destruct (testQuestion_run model results total (length done) q
                  {| fs := fs w; events := loop ++ events w |} Hq)
        as (r & seg & -> & Hseg & Hbar1).
      split; [apply Forall_app; split; [done|by constructor]|].
      exists (rs ++ [r]), (seg ++ loop). simplify_eq. cbn [fs events].
      split_and!.
      + rewrite !length_app. cbn. lia.
      + unfold recordedEntries, sum_scores.
        rewrite !zip_with_app by done. by rewrite fold_left_app.
      + by rewrite <- app_assoc.
      + by apply Forall_app.
      + rewrite rev_app_distr, progress_app, Hbar, Hbar1, length_app.
        cbn [length]. rewrite seq_app. cbn [seq Nat.add].
        by rewrite Nat.add_1_r. }
  assert (Hinit : I [] ([], PrimFloat.zero) w).
  { split; [done|]. exists [], []. by destruct w. }
  apply (for_entries_rule _ I T (λ _ _, False) l Hstep _ _ Hinit).
Qed.

Lemma isModelAvailable_run model w :
  isModelAvailable svc model w
  = (Ret (listed svc (events w) model), emit EvList w).
Proof.
  unfold isModelAvailable, listed. run_monad.
  by destruct (list_reply svc (events w)).
Qed.

Lemma tested_app evs1 evs2 : tested (evs1 ++ evs2) = tested evs1 ++ tested evs2.
Proof. apply omap_app. Qed.

Lemma tested_question_events model loop :
  Forall (question_event model) loop → tested (rev loop) = [].
Proof.
  intros Hloop.
  assert (H : Forall (question_event model) (rev loop)).
  { apply Forall_forall. intros e He. rewrite elem_of_rev in He.
    by apply (proj1 (Forall_forall _ _) Hloop). }
  induction H as [|e l He _ IH]; [done|].
  change (e :: l) with ([e] ++ l). rewrite tested_app, IH.
  by destruct e as [| | | | |[]].
Qed.

Lemma question_event_turn model e : question_event model e → turn_event model e.
Proof. by destruct e as [| | | | |[]]. Qed.

(** One turn of the loop over the models: the model is skipped; or all the
    questions are asked and the file of the model is written, which may
    fail; or [QUESTIONS] makes the turn raise before anything is
    written. *)
Lemma testModel_turn models model w :
  let check := listed svc (EvLog (Testing model) :: events w) model in
  (check = false
   ∧ testModel rt svc dir Q models model w
     = (Ret models,
        {| fs := fs w; events := skip_events model ++ events w |}))
  ∨ (check = true
     ∧ ∃ qs rs loop,
         Q = JArr qs
         ∧ Forall (λ q, q ≠ JNull) qs
         ∧ length rs = length qs
         ∧ Forall (question_event model) loop
         ∧ progress (rev loop) = seq 1 (length qs)
         ∧ let data := resultsData rt qs rs in
           let before := turn_events qs model loop ++ events w in
           testModel rt svc dir Q models model w
           = match write_error svc before (resultPath dir model) data with
             | None =>
                 (Ret (obj_set model (summary_as_built rt qs model rs) models),
                  {| fs := <[resultPath dir model := data]> (fs w);
                     events := EvWrite (resultPath dir model) data :: before |})
             | Some msg =>
                 (Throw msg,
                  {| fs := fs w;
                     events := EvWrite (resultPath dir model) data :: before |})
             end)
  ∨ (check = true
     ∧ questions_raise Q
     ∧ ∃ msg part,
         testModel rt svc dir Q models model w
         = (Throw msg, {| fs := fs w; events := part ++ events w |})
         ∧ Forall (turn_event model) part
         ∧ tested (rev part) = [model]).
Proof.
  intros check.
  assert (Hhead : ∀ k : bool → M (list (string * json)),
            (console (Testing model);;
             available ← isModelAvailable svc model; k available) w
            = k check {| fs := fs w;
                         events := EvList :: EvLog (Testing model) :: events w |}).
  { intros k. unfold mbind, M_bind, console, perform, emit.
    by rewrite isModelAvailable_run. }
  unfold testModel. rewrite Hhead. clear Hhead.
  destruct check; [right|left; by split].
  cbn [negb].
  destruct Q as [|b|x|s|qs|fields] eqn:HQ.
  5: { (* an array *)
    unfold length_of, entries. run_monad.
    pose proof (questions_run model qs
                  {| fs := fs w;
                     events := EvLog (BarStart
                                        (Some (JNum (Number_of_nat (length qs)))))
                               :: EvList :: EvLog (Testing model) :: events w |})
      as Hrun.
    destruct (for_entries _ _ _ qs _) as [[[results total]|msg|c] w'];
      [left|right|done]; (split; [done|]).
    - destruct Hrun as (Hqs & rs & loop & Hlen & [= -> ->] & -> & Hloop & Hbar).
      exists qs, rs, loop. split_and!; [done..|].
      cbn [events fs]. unfold turn_events, resultsData.
      cbn [app]. rewrite <- ?app_assoc. cbn [app]. fold (resultPath dir model).
      destruct (write_error svc _ _ _); reflexivity.
    - destruct Hrun as (Hnull & loop & -> & Hloop).
      split; [done|].
      exists msg, (loop ++ [EvLog (BarStart
                                     (Some (JNum (Number_of_nat (length qs)))));
                            EvList; EvLog (Testing model)]).
      split_and!; [by rewrite <- app_assoc| |].
      + apply Forall_app. split; [|by repeat constructor].
        eapply Forall_impl; [done|]. apply question_event_turn.
      + rewrite rev_app_distr, tested_app.
        by rewrite (tested_question_events model loop Hloop). }
  all: right; (split; [done|]); (split; [done|]);
    unfold length_of, entries; run_monad.
  - eexists _, [_; _]. split_and!; [done| |done]. by repeat constructor.
  - eexists _, [_; _; _]. split_and!; [done| |done]. by repeat constructor.
  - eexists _, [_; _; _]. split_and!; [done| |done]. by repeat constructor.
  - eexists _, [_; _; _]. split_and!; [done| |done]. by repeat constructor.
  - eexists _, [_; _; _]. split_and!; [done| |done]. by repeat constructor.
Qed.

(** *** What the events of a run look like *)

Lemma question_event_owned model e : question_event model e → owned_by dir model e.
Proof. by destruct e as [| | | | |[]]. Qed.

Lemma turn_event_owned model e : turn_event model e → owned_by dir model e.
Proof. by destruct e as [| | | | |[]]. Qed.

Lemma question_event_no_write model loop path data :
  Forall (question_event model) loop → EvWrite path data ∉ loop.
Proof. intros H Hin. by apply (proj1 (Forall_forall _ _) H) in Hin. Qed.

Lemma question_event_not_found model loop m :
  Forall (question_event model) loop → EvLog (ModelNotFound m) ∉ loop.
Proof. intros H Hin. by apply (proj1 (Forall_forall _ _) H) in Hin. Qed.

Lemma turn_event_no_write model part path data :
  Forall (turn_event model) part → EvWrite path data ∉ part.
Proof. intros H Hin. by apply (proj1 (Forall_forall _ _) H) in Hin. Qed.

Lemma turn_event_not_found model part m :
  Forall (turn_event model) part → EvLog (ModelNotFound m) ∉ part.
Proof. intros H Hin. by apply (proj1 (Forall_forall _ _) H) in Hin. Qed.

Lemma turn_event_chat model part m c t :
  Forall (turn_event model) part → EvChat m c t ∈ part → m = model.
Proof. intros H Hin. by apply (proj1 (Forall_forall _ _) H) in Hin. Qed.

Lemma turn_events_no_write qs model loop path data :
  Forall (question_event model) loop →
  EvWrite path data ∉ turn_events qs model loop.
Proof.
  intros H. unfold turn_events.
  rewrite elem_of_cons, elem_of_app, !elem_of_cons, elem_of_nil.
  pose proof (question_event_no_write model loop path data H).
  intros [?|[?|[?|[?|[?|[]]]]]]; done.
Qed.

Lemma turn_events_not_found qs model loop m :
  Forall (question_event model) loop →
  EvLog (ModelNotFound m) ∉ turn_events qs model loop.
Proof.
  intros H. unfold turn_events.
  rewrite elem_of_cons, elem_of_app, !elem_of_cons, elem_of_nil.
  pose proof (question_event_not_found model loop m H).
  intros [?|[?|[?|[?|[?|[]]]]]]; done.
Qed.

Lemma turn_events_owned qs model loop :
  Forall (question_event model) loop →
  Forall (owned_by dir model) (turn_events qs model loop).
Proof.
  intros H. unfold turn_events.
  apply Forall_cons; split; [done|]. apply Forall_app; split.
  - eapply Forall_impl; [done|]. apply question_event_owned.
  - by repeat constructor.
Qed.

Lemma turn_owned older model seg :
  turn rt svc dir Q older model seg → Forall (owned_by dir model) seg.
Proof.
  destruct 1 as [|qs rs loop Hcheck HQ Hqs Hlen Hloop Hbar].
  - by repeat constructor.
  - apply Forall_cons; split; [done|]. by apply turn_events_owned.
Qed.

(** Who the events of a run belong to. *)
Lemma turns_owned done evs e :
  turns rt svc dir Q done evs → e ∈ evs →
  ∃ model, (model ∈ done ∨ e = EvNow) ∧ owned_by dir model e.
Proof.
  induction 1 as [|done evs model seg Hturns IH Hturn].
  - rewrite list_elem_of_singleton. intros ->. exists ""%string. split; [by right|done].
  - rewrite elem_of_app. intros [Hin|Hin].
    + exists model. split; [left; rewrite elem_of_app, list_elem_of_singleton; auto|].
      by apply (proj1 (Forall_forall _ _) (turn_owned _ _ _ Hturn)).
    + destruct (IH Hin) as (m & [Hm| ->] & Hown); exists m; split; auto.
      left. rewrite elem_of_app. auto.
Qed.

Lemma turns_chat_done done evs m c t :
  turns rt svc dir Q done evs → EvChat m c t ∈ evs → m ∈ done.
Proof.
  intros Hturns Hin.
  destruct (turns_owned _ _ _ Hturns Hin) as (m' & [?|?] & Hown); [|done].
  cbn in Hown. by subst.
Qed.

Lemma turns_not_found_done done evs m :
  turns rt svc dir Q done evs → EvLog (ModelNotFound m) ∈ evs → m ∈ done.
Proof.
  intros Hturns Hin.
  destruct (turns_owned _ _ _ Hturns Hin) as (m' & [?|?] & Hown); [|done].
  cbn in Hown. by subst.
Qed.

Lemma turns_testing_done done evs m :
  turns rt svc dir Q done evs → EvLog (Testing m) ∈ evs → m ∈ done.
Proof.
  intros Hturns Hin.
  destruct (turns_owned _ _ _ Hturns Hin) as (m' & [?|?] & Hown); [|done].
  cbn in Hown. by subst.
Qed.

Lemma turns_write_done done evs path data :
  turns rt svc dir Q done evs → EvWrite path data ∈ evs →
  ∃ m, m ∈ done ∧ path = resultPath dir m.
Proof.
  intros Hturns Hin.
  destruct (turns_owned _ _ _ Hturns Hin) as (m' & [?|?] & Hown); [|done].
  cbn in Hown. eauto.
Qed.
(** A write of a run is the write of the complete file of a model: it
    holds one entry per question, it comes right after the loop over the
    questions of that model, which went through all of them, and no chat
    request for that model follows it. *)
Lemma turns_write done evs later path data earlier :
  turns rt svc dir Q done evs → NoDup done →
  evs = later ++ EvWrite path data :: earlier →
  ∃ m qs rs, m ∈ done ∧ path = resultPath dir m
             ∧ Q = JArr qs ∧ Forall (λ q, q ≠ JNull) qs
             ∧ length rs = length qs ∧ data = resultsData rt qs rs
             ∧ (∀ c t, EvChat m c t ∉ later)
             ∧ ∃ loop older,
                 earlier = turn_events qs m loop ++ older
                 ∧ Forall (question_event m) loop
                 ∧ progress (rev loop) = seq 1 (length qs).
Proof.
  intros Hturns. revert later.
  induction Hturns as [|done evs model seg Hturns IH Hturn];
    intros later Hnodup Heq.
  - by destruct later as [|? [|? ?]].
  - apply NoDup_app in Hnodup as (Hnodup & Hfresh & _).
    apply split_app_event in Heq as [(mid & Hseg & ->)|(mid & -> & Hevs)].
    + destruct Hturn as [|qs rs loop Hcheck HQ Hqs Hlen Hloop Hbar].
      * exfalso. assert (Hin : EvWrite path data ∈ skip_events model)
          by (rewrite Hseg, elem_of_app, elem_of_cons; auto).
        unfold skip_events in Hin. rewrite !elem_of_cons, elem_of_nil in Hin.
        by destruct Hin as [?|[?|[?|[]]]].
      * destruct later as [|e later]; cbn in Hseg; injection Hseg as ? Hseg.
        -- simplify_eq. exists model, qs, rs.
           rewrite elem_of_app, list_elem_of_singleton.
           split_and!; auto; [|by exists loop, evs].
           intros c t Hin. by apply elem_of_nil in Hin.
        -- exfalso. apply (turn_events_no_write qs model loop path data Hloop).
           rewrite Hseg, elem_of_app, elem_of_cons. auto.
    + destruct (IH mid Hnodup Hevs)
        as (m & qs & rs & Hm & -> & HQ & Hqs & Hlen & -> & Hchat & Hbefore).
      exists m, qs, rs. rewrite elem_of_app. split_and!; auto.
      intros c t [Hin|Hin]%elem_of_app; [|by eapply Hchat].
      apply (proj1 (Forall_forall _ _) (turn_owned _ _ _ Hturn)) in Hin.
      cbn in Hin. subst m. apply (Hfresh model); [done|]. by left.
Qed.

(** A model reported as not found is asked nothing and has no file
    written. *)
Lemma turns_not_found done evs m :
  turns rt svc dir Q done evs → NoDup done →
  EvLog (ModelNotFound m) ∈ evs →
  (∀ c t, EvChat m c t ∉ evs) ∧ (∀ data, EvWrite (resultPath dir m) data ∉ evs).
Proof.
  induction 1 as [|done evs model seg Hturns IH Hturn]; intros Hnodup Hin.
  - apply list_elem_of_singleton in Hin. done.
  - apply NoDup_app in Hnodup as (Hnodup & Hfresh & _).
    assert (Hmodel : model ∉ done)
      by (intros ?; apply (Hfresh model); [done|by left]).
    pose proof (turn_owned _ _ _ Hturn) as Hown.
    apply elem_of_app in Hin as [Hin|Hin].
    + (* the warning is of this turn: the model was skipped *)
      assert (m = model) as ->
        by (by apply (proj1 (Forall_forall _ _) Hown) in Hin).
      assert (seg = skip_events model) as ->.
      { destruct Hturn as [|qs rs loop Hcheck HQ Hqs Hlen Hloop Hbar]; [done|].
        exfalso.
        apply elem_of_cons in Hin as [?|Hin]; [done|].
        by apply (turn_events_not_found qs model loop model Hloop). }
      split.
      * intros c t [Hc|Hc]%elem_of_app.
        -- unfold skip_events in Hc. rewrite !elem_of_cons, elem_of_nil in Hc.
           by destruct Hc as [?|[?|[?|[]]]].
        -- by apply Hmodel, (turns_chat_done _ _ _ c t Hturns).
      * intros data [Hc|Hc]%elem_of_app.
        -- unfold skip_events in Hc. rewrite !elem_of_cons, elem_of_nil in Hc.
           by destruct Hc as [?|[?|[?|[]]]].
        -- destruct (turns_write_done _ _ _ _ Hturns Hc) as (m' & Hm' & Heq).
           apply resultPath_inj in Heq. by subst.
    + (* the warning is older: this turn is of another model *)
      pose proof (turns_not_found_done _ _ _ Hturns Hin) as Hm.
      destruct (IH Hnodup Hin) as [Hchat Hwrite].
      split.
      * intros c t [Hc|Hc]%elem_of_app; [|by eapply Hchat].
        apply (proj1 (Forall_forall _ _) Hown) in Hc. cbn in Hc. by subst.
      * intros data [Hc|Hc]%elem_of_app; [|by eapply Hwrite].
        apply (proj1 (Forall_forall _ _) Hown) in Hc. cbn in Hc.
        apply resultPath_inj in Hc. by subst.
Qed.

(** Where the announcement of a model lies in its turn: at the very
    start. *)
Lemma turn_starts older model seg later m mid :
  turn rt svc dir Q older model seg →
  seg = later ++ EvLog (Testing m) :: mid →
  m = model ∧ mid = []
  ∧ if listed svc (EvLog (Testing model) :: older) model
    then ∃ data, EvWrite (resultPath dir model) data ∈ later
    else EvLog (ModelNotFound model) ∈ later.
Proof.
  intros Hturn Hseg.
  assert (Hlast : ∃ body, seg = body ++ [EvLog (Testing model)]
                          ∧ (∀ m', EvLog (Testing m') ∉ body)
                          ∧ if listed svc (EvLog (Testing model) :: older) model
                            then ∃ data, EvWrite (resultPath dir model) data ∈ body
                            else EvLog (ModelNotFound model) ∈ body).
  { destruct Hturn as [Hcheck|qs rs loop Hcheck HQ Hqs Hlen Hloop Hbar].
    - exists [EvLog (ModelNotFound model); EvList]. rewrite Hcheck.
      split_and!; [done| |by left].
      intros m'. rewrite !elem_of_cons, elem_of_nil. by intros [?|[?|[]]].
    - exists (EvWrite (resultPath dir model) (resultsData rt qs rs)
              :: EvLog BarStop
              :: loop ++ [EvLog (BarStart (Some (JNum (Number_of_nat (length qs)))));
                          EvList]).
      rewrite Hcheck. split_and!.
      + unfold turn_events. cbn [app]. by rewrite <- app_assoc.
      + intros m'. rewrite !elem_of_cons, elem_of_app, !elem_of_cons, elem_of_nil.
        intros [?|[?|[Hin|[?|[?|[]]]]]]; try done.
        by apply (proj1 (Forall_forall _ _) Hloop) in Hin.
      + eexists. by left. }
  destruct Hlast as (body & -> & Hbody & Hdone).
  destruct mid as [|e mid _] using rev_ind.
  - apply app_inj_tail in Hseg as [-> [= ->]]. done.
  - exfalso. rewrite app_comm_cons, (assoc_L (++)) in Hseg.
    apply app_inj_tail in Hseg as [-> _].
    apply (Hbody m). rewrite elem_of_app, elem_of_cons. auto.
Qed.

(** Every model announced had its turn: if it was found in the list of the
    installed models its file was written, and if not the warning was
    logged. *)
Lemma turns_testing done evs later m earlier :
  turns rt svc dir Q done evs →
  evs = later ++ EvLog (Testing m) :: earlier →
  if listed svc (EvLog (Testing m) :: earlier) m
  then ∃ data, EvWrite (resultPath dir m) data ∈ later
  else EvLog (ModelNotFound m) ∈ later.
Proof.
  intros Hturns. revert later.
  induction Hturns as [|done evs model seg Hturns IH Hturn]; intros later Heq.
  - by destruct later as [|? [|? ?]].
  - apply split_app_event in Heq as [(mid & Hseg & ->)|(mid & -> & Hevs)].
    + destruct (turn_starts _ _ _ _ _ _ Hturn Hseg) as (-> & -> & Hdone).
      done.
    + specialize (IH mid Hevs).
      destruct (listed svc _ m).
      * destruct IH as [data Hin]. exists data. rewrite elem_of_app. auto.
      * rewrite elem_of_app. auto.
Qed.

Lemma writes_succeeded_quiet seg old :
  writes_succeeded svc old → (∀ path data, EvWrite path data ∉ seg) →
  writes_succeeded svc (seg ++ old).
Proof.
  intros Hold Hseg later path data earlier Heq.
  apply split_app_event in Heq as [(mid & -> & ->)|(mid & -> & Hevs)].
  - exfalso. apply (Hseg path data). rewrite elem_of_app, elem_of_cons. auto.
  - by eapply Hold.
Qed.

Lemma writes_succeeded_write old path data :
  writes_succeeded svc old → write_error svc old path data = None →
  writes_succeeded svc (EvWrite path data :: old).
Proof.
  intros Hold Hok [|e later] path' data' earlier Heq; cbn in Heq;
    injection Heq as ? Heq; simplify_eq; [done|].
  by eapply Hold.
Qed.

Lemma field_obj_set {A} (k k' : string) (v : A) (l : list (string * A)) :
  field k (obj_set k' v l) = if String.eqb k k' then Some v else field k l.
Proof.
  induction l as [|[k0 v0] l IH]; cbn.
  - by destruct (String.eqb k k').
  - destruct (String.eqb_spec k' k0) as [->|Hne]; cbn.
    + by destruct (String.eqb k k0).
    + rewrite IH. destruct (String.eqb_spec k k0) as [->|?]; [|done].
      destruct (String.eqb_spec k0 k'); [by subst|done].
Qed.

Lemma summaries_recorded_grow models seg evs :
  summaries_recorded rt dir Q models evs →
  summaries_recorded rt dir Q models (seg ++ evs).
Proof.
  intros H m s Hm. destruct (H m s Hm) as (qs & rs & ? & ? & ? & ?).
  exists qs, rs. rewrite elem_of_app. auto.
Qed.

Lemma models_loop ms w :
  NoDup ms → events w = [EvNow] →
  match for_of (testModel rt svc dir Q) [] ms w with
  | (Ret models, w') =>
      turns rt svc dir Q ms (events w')
      ∧ writes_succeeded svc (events w')
      ∧ summaries_recorded rt dir Q models (events w')
      ∧ files_summarised dir models (events w')
  | (Throw msg, w') =>
      write_failed rt svc dir Q ms msg w' ∨ questions_raised rt svc dir Q ms w'
  | (Exit _, _) => False
  end.
Proof.
  intros Hnodup Hw.
  apply (for_entries_rule (λ s _ x, testModel rt svc dir Q s x)
           (λ done models w',
              turns rt svc dir Q done (events w')
              ∧ writes_succeeded svc (events w')
              ∧ summaries_recorded rt dir Q models (events w')
              ∧ files_summarised dir models (events w'))
           (λ msg w', write_failed rt svc dir Q ms msg w'
                      ∨ questions_raised rt svc dir Q ms w')
           (λ _ _, False)).
  - intros done x rest models w1 Hms (Hturns & Hsucc & Hsum & Hfiles).
    assert (Hdone : NoDup (done ++ [x])).
    { rewrite Hms, cons_middle, (assoc_L (++)) in Hnodup.
      by apply NoDup_app in Hnodup as (? & _). }
    assert (Hsub : ∀ m, m ∈ done ++ [x] → m ∈ ms).
    { intros m Hm. rewrite Hms.
      apply elem_of_app in Hm as [?|Hm]; apply elem_of_app; [by left|right].
      apply list_elem_of_singleton in Hm as ->. by left. }
    destruct (testModel_turn models x w1)
      as [[Hcheck ->]
         |[(Hcheck & qs & rs & loop & HQ & Hqs & Hlen & Hloop & Hbar & Hrun)
          |(Hcheck & Hraise & msg & part & -> & Hpart & _)]]; cbn [events].
    + split_and!.
      * constructor; [done|by constructor].
      * apply writes_succeeded_quiet; [done|]. intros path data Hin.
        unfold skip_events in Hin. rewrite !elem_of_cons, elem_of_nil in Hin.
        by destruct Hin as [?|[?|[?|[]]]].
      * by apply summaries_recorded_grow.
      * intros m data [Hin|Hin]%elem_of_app; [|by eapply Hfiles].
        unfold skip_events in Hin. rewrite !elem_of_cons, elem_of_nil in Hin.
        by destruct Hin as [?|[?|[?|[]]]].
    + cbn zeta in Hrun. rewrite Hrun. clear Hrun.
      assert (Hturns' : turns rt svc dir Q (done ++ [x])
                (EvWrite (resultPath dir x) (resultsData rt qs rs)
                 :: turn_events qs x loop ++ events w1)).
      { apply (turns_snoc rt svc dir Q done (events w1) x
                 (EvWrite (resultPath dir x) (resultsData rt qs rs)
                  :: turn_events qs x loop)); [done|by constructor]. }
      assert (Hquiet : writes_succeeded svc (turn_events qs x loop ++ events w1)).
      { apply writes_succeeded_quiet; [done|].
        intros path data. by apply turn_events_no_write. }
      destruct (write_error svc _ _ _) as [msg|] eqn:Herr; cbn [events].
      * left. exists (done ++ [x]), (resultPath dir x), (resultsData rt qs rs),
          (turn_events qs x loop ++ events w1). by split_and!.
      * split_and!; [done|by apply writes_succeeded_write| |].
        -- intros m s. rewrite field_obj_set.
           destruct (String.eqb_spec m x) as [->|Hne].
           ++ intros [= <-]. exists qs, rs. split_and!; [done|done| |done].
              apply elem_of_cons. by left.
           ++ intros Hm. destruct (Hsum m s Hm) as (qs' & rs' & ? & ? & ? & ?).
              exists qs', rs'. split_and!; [done|done| |done].
              rewrite elem_of_cons, elem_of_app. auto.
        -- intros m data Hin. rewrite field_obj_set.
           destruct (String.eqb_spec m x) as [->|Hne]; [done|].
           apply elem_of_cons in Hin as [Hin|Hin].
           ++ injection Hin as Hpath _. by apply resultPath_inj in Hpath.
           ++ apply elem_of_app in Hin as [Hin|Hin]; [|by eapply Hfiles].
              by apply turn_events_no_write in Hin.
    + right. exists done, x, part, (events w1). by split_and!.
  - rewrite Hw. split_and!.
    + constructor.
    + intros [|? [|? ?]] ? ? ? ?; done.
    + intros m s Hm. done.
    + intros m data Hin. by apply list_elem_of_singleton in Hin.
Qed.

(** The whole run: every model has its turn and the final report is
    written (which may fail); or the write of a result file failed and the
    run stopped there; or [QUESTIONS] made a turn raise.  Either way the
    error, if any, is logged by the handler of the script and the script
    ends normally. *)
Lemma runTestsOn_run ms files :
  NoDup ms →
  ∃ w,
    try_catch (runTestsOn rt svc dir Q ms)
      (λ msg, console (UnexpectedError msg)) (initial files) = (Ret tt, w)
    ∧ ((∃ evs models start stop last,
          turns rt svc dir Q ms evs
          ∧ writes_succeeded svc evs
          ∧ summaries_recorded rt dir Q models evs
          ∧ files_summarised dir models evs
          ∧ events w
            = EvLog last
              :: EvWrite (finalReportPath dir)
                   (JSON_stringify (finalReport start models stop))
              :: EvNow :: evs
          ∧ last = match write_error svc (EvNow :: evs) (finalReportPath dir)
                           (JSON_stringify (finalReport start models stop)) with
                   | None => AllComplete
                   | Some msg => UnexpectedError msg
                   end)
       ∨ (∃ msg w', write_failed rt svc dir Q ms msg w'
                    ∧ events w = EvLog (UnexpectedError msg) :: events w')
       ∨ (∃ msg w', questions_raised rt svc dir Q ms w'
                    ∧ events w = EvLog (UnexpectedError msg) :: events w')).
Proof.
  intros Hnodup. unfold runTestsOn.
  unfold try_catch, mbind at 1, M_bind at 1, Date_toISOString at 1, emit, initial.
  cbn [events fs].
  pose proof (models_loop ms {| fs := files; events := [EvNow] |} Hnodup eq_refl)
    as Hloop.
  unfold mbind at 1, M_bind at 1.
  destruct (for_of _ _ ms _) as [[models|msg|c] w']; [| |done].
  - destruct Hloop as (Hturns & Hsucc & Hsum & Hfiles). run_monad.
    destruct (write_error svc _ _ _) as [msg|] eqn:Herr; cbn [fst snd events].
    + eexists. split; [done|]. left. do 5 eexists. split_and!; [done..|].
      by rewrite Herr.
    + eexists. split; [done|]. left. do 5 eexists. split_and!; [done..|].
      by rewrite Herr.
  - run_monad. eexists. split; [done|]. right.
    destruct Hloop as [Hfailed|Hraised]; [left|right]; by exists msg, w'.
Qed.

Lemma NoDup_MODELS : NoDup MODELS.
Proof. by apply (bool_decide_unpack _). Qed.

Lemma final_run files :
  ∃ w, main rt svc dir Q (initial files) = (Ret tt, w)
       ∧ final rt svc dir Q (initial files) = w
       ∧ ((∃ evs models start stop last,
             turns rt svc dir Q MODELS evs
             ∧ writes_succeeded svc evs
             ∧ summaries_recorded rt dir Q models evs
             ∧ files_summarised dir models evs
             ∧ events w
               = EvLog last
                 :: EvWrite (finalReportPath dir)
                      (JSON_stringify (finalReport start models stop))
                 :: EvNow :: evs
             ∧ last = match write_error svc (EvNow :: evs) (finalReportPath dir)
                              (JSON_stringify (finalReport start models stop)) with
                      | None => AllComplete
                      | Some msg => UnexpectedError msg
                      end)
          ∨ (∃ msg w', write_failed rt svc dir Q MODELS msg w'
                       ∧ events w = EvLog (UnexpectedError msg) :: events w')
          ∨ (∃ msg w', questions_raised rt svc dir Q MODELS w'
                       ∧ events w = EvLog (UnexpectedError msg) :: events w')).
Proof.
  destruct (runTestsOn_run MODELS files NoDup_MODELS) as (w & Hrun & Hshape).
  exists w. unfold final, main, runTests. rewrite Hrun. done.
Qed.

(** A run seen as the turns of some models, all different, under a few
    newer events [head]: [head] holds no write of a result file, and its
    chat requests are for a model that had no turn; a write in it is of
    the final report. *)
Lemma final_turns files :
  ∃ done evs head,
    NoDup done
    ∧ turns rt svc dir Q done evs
    ∧ events (final rt svc dir Q (initial files)) = head ++ evs
    ∧ (∀ path d, EvWrite path d ∈ head → path = finalReportPath dir)
    ∧ (∀ m c t, EvChat m c t ∈ head → m ∉ done)
    ∧ (∀ m, EvLog (ModelNotFound m) ∉ head)
    ∧ (∀ data,
         EvWrite (finalReportPath dir) data ∈ head →
         done = MODELS
         ∧ (∀ m, EvLog (Testing m) ∉ head)
         ∧ ∃ start models stop,
             data = JSON_stringify (finalReport start models stop)
             ∧ summaries_recorded rt dir Q models evs
             ∧ files_summarised dir models evs).
Proof.
  destruct (final_run files) as (w & _ & -> & Hshape).
  destruct Hshape as [(evs & models & start & stop & last & Hturns & _ & Hsum
                        & Hfiles & Hev & Hlast)
                     |[(msg & w' & (done & path & d & earlier & Hnodup & _
                                   & Hturns & _) & Hev)
                      |(msg & w' & (done & model & part & evs & Hnodup & _
                                    & Hturns & Hev' & Hpart & _) & Hev)]].
  - exists MODELS, evs, [EvLog last;
      EvWrite (finalReportPath dir)
        (JSON_stringify (finalReport start models stop));
      EvNow].
    split_and!; [apply NoDup_MODELS|done..| | | |].
    + intros path d. rewrite !elem_of_cons, elem_of_nil.
      intros [?|[?|[?|[]]]]; by simplify_eq.
    + intros m c t. rewrite !elem_of_cons, elem_of_nil.
      intros [?|[?|[?|[]]]]; by simplify_eq.
    + intros m. rewrite !elem_of_cons, elem_of_nil.
      intros [Heq|[?|[?|[]]]]; try done.
      injection Heq as Heq. rewrite <- Heq in Hlast.
      by destruct (write_error svc _ _ _).
    + intros data. rewrite !elem_of_cons, elem_of_nil.
      intros [?|[Heq|[?|[]]]]; try done. injection Heq as ->.
      split_and!; [done| |by exists start, models, stop].
      intros m. rewrite !elem_of_cons, elem_of_nil.
      intros [Heq|[?|[?|[]]]]; try done.
      injection Heq as Heq. rewrite <- Heq in Hlast.
      by destruct (write_error svc _ _ _).
  - exists done, (events w'), [EvLog (UnexpectedError msg)].
    split_and!; [done..| | | |].
    + intros ? ? ?%list_elem_of_singleton. done.
    + intros ? ? ? ?%list_elem_of_singleton. done.
    + intros ? ?%list_elem_of_singleton. done.
    + intros ? ?%list_elem_of_singleton. done.
  - apply NoDup_app in Hnodup as (Hnodup & Hfresh & _).
    exists done, evs, (EvLog (UnexpectedError msg) :: part).
    split_and!; [done|done|by rewrite Hev, Hev'| | | |].
    4: { intros data [?|Hin]%elem_of_cons; [done|].
         by apply (turn_event_no_write model part _ data Hpart) in Hin. }
    + intros path d [?|Hin]%elem_of_cons; [done|].
      by apply (turn_event_no_write model part path d Hpart) in Hin.
    + intros m c t [?|Hin]%elem_of_cons; [done|].
      apply (turn_event_chat model part m c t Hpart) in Hin as ->.
      intros Hin. apply (Hfresh model Hin). by left.
    + intros m [?|Hin]%elem_of_cons; [done|].
      by apply (turn_event_not_found model part m Hpart) in Hin.
Qed.

(** C6: in batch mode, whenever the result file of a model is written,
    the write comes right after the loop over the questions of that model,
    which has gone through every question (its progress counts from 1 to
    the number of questions); what is written is the complete list of that
    model, one entry per question in the order of the questions; and no
    chat request for that model comes after the write.  So no partial list
    is ever written while the questions of a model are still being
    asked. *)
Theorem result_file_written_after_all_questions files m pre data post :
  trace (final rt svc dir Q (initial files))
  = pre ++ EvWrite (resultPath dir m) data :: post →
  ∃ qs rs, Q = JArr qs
           ∧ length rs = length qs
           ∧ data = JSON_stringify (JArr (zip_with (recordedEntry rt) qs rs))
           ∧ (∀ c t, EvChat m c t ∉ post)
           ∧ ∃ loop older,
               pre = older ++ rev (turn_events qs m loop)
               ∧ Forall (question_event m) loop
               ∧ progress (rev loop) = seq 1 (length qs).
Proof.
  intros Htrace%trace_split.
  destruct (final_turns files)
    as (done & evs & head & Hnodup & Hturns & Hev & Hhead & Hquiet & _).
  rewrite Hev in Htrace.
  apply split_app_event in Htrace as [(mid & -> & _)|(mid & Hpost & Hevs)].
  - exfalso. apply (resultPath_not_final dir m), (Hhead _ data).
    rewrite elem_of_app, elem_of_cons. auto.
  - destruct (turns_write _ _ _ _ _ _ Hturns Hnodup Hevs)
      as (m' & qs & rs & Hdone & Hpath & HQ & _ & Hlen & -> & Hchat & loop
          & older & Hpre & Hloop & Hbar).
    apply resultPath_inj in Hpath as <-.
    exists qs, rs. split_and!; [done..| |].
    + intros c t Hin. rewrite <- elem_of_rev in Hin. rewrite Hpost in Hin.
      apply elem_of_app in Hin as [Hin|Hin]; [by eapply Hquiet|by eapply Hchat].
    + exists loop, (rev older). split_and!; [|done..].
      by rewrite <- (rev_involutive pre), Hpre, rev_app_distr.
Qed.

(** No result file is the final report. *)
Lemma turns_no_report done evs data :
  turns rt svc dir Q done evs → EvWrite (finalReportPath dir) data ∉ evs.
Proof.
  intros Hturns Hin.
  destruct (turns_write_done _ _ _ _ Hturns Hin) as (m & _ & Heq).
  symmetry in Heq. by apply resultPath_not_final in Heq.
Qed.

(** The models mapping that is read off a written report has the keys of
    the mapping that was written. *)
Lemma report_models_written start models stop :
  report_models (JSON_stringify (finalReport start models stop))
  = map (λ kv, (kv.1, printed kv.2)) models.
Proof. reflexivity. Qed.

Lemma report_models_field m start models stop :
  field m (report_models (JSON_stringify (finalReport start models stop)))
  = printed <$> field m models.
Proof. rewrite report_models_written. apply printed_field. Qed.

(** A write of a run that carries a final report is the write of the
    final report. *)
Lemma report_write_path files path start models stop :
  EvWrite path (JSON_stringify (finalReport start models stop))
  ∈ events (final rt svc dir Q (initial files)) →
  path = finalReportPath dir.
Proof.
  destruct (final_turns files)
    as (done & evs & head & Hnodup & Hturns & -> & Hhead & _).
  intros [Hin|Hin]%elem_of_app; [by eapply Hhead|].
  apply list_elem_of_split in Hin as (later & earlier & Heq).
  destruct (turns_write _ _ _ _ _ _ Hturns Hnodup Heq)
    as (m & qs & rs & _ & _ & _ & _ & _ & Hdata & _).
  unfold resultsData, JSON_stringify in Hdata. cbn [printed] in Hdata.
  discriminate Hdata.
Qed.

(** C8: in batch mode a model whose availability check returns false is
    skipped entirely.  Its turn does nothing but log the warning (first
    part); and a model so reported is sent no chat request, has no result
    file written, and has no entry in the models mapping of the final
    report, neither in the mapping that the run built nor in what was
    written of it (second part). *)
Theorem unavailable_model_skipped files m :
  (∀ models w,
     (isModelAvailable svc m (emit (EvLog (Testing m)) w)).1 = Ret false →
     testModel rt svc dir Q models m w
     = (Ret models,
        {| fs := fs w;
           events := [EvLog (ModelNotFound m); EvList; EvLog (Testing m)]
                     ++ events w |}))
  ∧ (EvLog (ModelNotFound m) ∈ events (final rt svc dir Q (initial files)) →
     (∀ c t, EvChat m c t ∉ events (final rt svc dir Q (initial files)))
     ∧ (∀ data,
          EvWrite (resultPath dir m) data
          ∉ events (final rt svc dir Q (initial files)))
     ∧ (∀ data,
          EvWrite (finalReportPath dir) data
          ∈ events (final rt svc dir Q (initial files)) →
          field m (report_models data) = None
          ∧ ∃ start models stop,
              data = JSON_stringify (finalReport start models stop)
              ∧ field m models = None)
     ∧ (∀ path start models stop,
          EvWrite path (JSON_stringify (finalReport start models stop))
          ∈ events (final rt svc dir Q (initial files)) →
          field m models = None)).
Proof.
  split.
  - intros models w Hcheck. rewrite isModelAvailable_run in Hcheck.
    cbn in Hcheck. injection Hcheck as Hcheck.
    destruct (testModel_turn models m w)
      as [[_ ->]|[(Htrue & _)|(Htrue & _)]]; [done|congruence..].
  - pose proof (report_write_path files) as Hpath.
    destruct (final_turns files)
      as (done & evs & head & Hnodup & Hturns & Hev & Hhead & Hquiet & Hwarn
          & Hreport).
    rewrite Hev in Hpath |- *.
    intros [Hin|Hin]%elem_of_app; [by apply Hwarn in Hin|].
    pose proof (turns_not_found_done _ _ _ Hturns Hin) as Hdone.
    destruct (turns_not_found _ _ _ Hturns Hnodup Hin) as [Hchat Hwrite].
    assert (Hwritten : ∀ data,
              EvWrite (finalReportPath dir) data ∈ head ++ evs →
              field m (report_models data) = None
              ∧ ∃ start models stop,
                  data = JSON_stringify (finalReport start models stop)
                  ∧ field m models = None).
    { intros data [Hc|Hc]%elem_of_app;
        [|by apply (turns_no_report _ _ _ Hturns) in Hc].
      destruct (Hreport data Hc)
        as (_ & _ & start & models & stop & -> & Hsum & _).
      assert (Hnone : field m models = None).
      { destruct (field m models) as [summary|] eqn:Hfield; [|done].
        destruct (Hsum m summary Hfield) as (qs & rs & _ & _ & Hw & _).
        by apply Hwrite in Hw. }
      split; [by rewrite report_models_field, Hnone|].
      by exists start, models, stop. }
    split_and!.
    + intros c t [Hc|Hc]%elem_of_app; [by apply Hquiet in Hc|by eapply Hchat].
    + intros data [Hc|Hc]%elem_of_app; [|by eapply Hwrite].
      apply Hhead in Hc. by apply resultPath_not_final in Hc.
    + exact Hwritten.
    + intros path start models stop Hc.
      pose proof (Hpath _ _ _ _ Hc) as ->.
      destruct (Hwritten _ Hc) as [Hnone _].
      rewrite report_models_field in Hnone.
      by destruct (field m models).
Qed.

Lemma tested_turn_events qs model loop :
  Forall (question_event model) loop →
  tested (rev (turn_events qs model loop)) = [model].
Proof.
  intros Hloop. unfold turn_events. cbn [rev].
  rewrite rev_app_distr, !tested_app, (tested_question_events model loop Hloop).
  done.
Qed.

(** The models announced in the turns of [done] are the models [done]. *)
Lemma turns_tested done evs :
  turns rt svc dir Q done evs → tested (rev evs) = done.
Proof.
  induction 1 as [|done evs model seg Hturns IH Hturn]; [done|].
  rewrite rev_app_distr, tested_app, IH. f_equal.
  destruct Hturn as [|qs rs loop Hcheck HQ Hqs Hlen Hloop Hbar]; [done|].
  cbn [rev]. rewrite tested_app, (tested_turn_events qs model loop Hloop).
  done.
Qed.

(** C2, as the code has it: in every final report that batch mode writes,
    every model of the list has been checked, and every model that was
    found available has a summary.  The summary of a model has [avg_score]
    equal to a string, the text that [toFixed(1)] gives for the mean: the
    mean over all the questions of (scoreEN + scoreHI) / 2, the sum taken
    over the questions that were answered and divided by the total number
    of questions, failed ones included (with no question at all the mean
    is 0/0, not a number); [total_questions] is that total.  The scores
    are those recorded in the result file of the model, and every model
    whose result file was written has such a summary. *)
Theorem final_report_summaries files data :
  EvWrite (finalReportPath dir) data
  ∈ events (final rt svc dir Q (initial files)) →
  ∃ start models stop,
    data = JSON_stringify (finalReport start models stop)
    ∧ tested (trace (final rt svc dir Q (initial files))) = MODELS
    ∧ (∀ m pre post w,
         trace (final rt svc dir Q (initial files))
         = pre ++ EvLog (Testing m) :: post →
         events w = rev pre →
         (isModelAvailable svc m (emit (EvLog (Testing m)) w)).1 = Ret true →
         is_Some (field m models))
    ∧ (∀ m summary,
         field m models = Some summary →
         ∃ qs rs,
           Q = JArr qs
           ∧ length rs = length qs
           ∧ EvWrite (resultPath dir m)
               (JSON_stringify (JArr (zip_with (recordedEntry rt) qs rs)))
             ∈ events (final rt svc dir Q (initial files))
           ∧ summary
             = JObj [("avg_score",
                      JStr (toFixed1 rt
                              (PrimFloat.div (sum_scores rt qs rs)
                                 (Number_of_nat (length qs)))));
                     ("total_questions", JNum (Number_of_nat (length qs)));
                     ("details_file", JStr (lit (resultsFileName m)))]
           ∧ (qs = [] →
              summary
              = JObj [("avg_score", JStr (toFixed1 rt PrimFloat.nan));
                      ("total_questions", JNum 0);
                      ("details_file", JStr (lit (resultsFileName m)))]))
    ∧ (∀ m data',
         EvWrite (resultPath dir m) data'
         ∈ events (final rt svc dir Q (initial files)) →
         is_Some (field m models)).
Proof.
  unfold trace.
  destruct (final_turns files)
    as (done & evs & head & Hnodup & Hturns & -> & Hhead & Hquiet & Hwarn
        & Hreport).
  intros [Hin|Hin]%elem_of_app;
    [|by apply (turns_no_report _ _ _ Hturns) in Hin].
  destruct (Hreport data Hin)
    as (-> & Hannounced & start & models & stop & -> & Hsum & Hfiles).
  exists start, models, stop. split_and!.
  - done.
  - rewrite rev_app_distr, tested_app, (turns_tested _ _ Hturns).
    assert (Hnone : tested (rev head) = []); [|by rewrite Hnone, app_nil_r].
    assert (H : ∀ m, EvLog (Testing m) ∉ rev head)
      by (intros m; rewrite elem_of_rev; apply Hannounced).
    induction (rev head) as [|e l IH]; [done|].
    change (e :: l) with ([e] ++ l). rewrite tested_app, IH.
    + destruct e as [| | | | |[]]; try done.
      exfalso. apply (H model). by left.
    + intros m Hm. apply (H m). by right.
  - intros m pre post w Htrace Hw Havailable.
    rewrite isModelAvailable_run in Havailable. cbn in Havailable.
    injection Havailable as Hlisted. rewrite Hw in Hlisted.
    apply (f_equal (@rev Event)) in Htrace.
    rewrite rev_involutive, rev_app_distr in Htrace. cbn [rev] in Htrace.
    rewrite <- app_assoc in Htrace. cbn [app] in Htrace.
    apply split_app_event in Htrace as [(mid & Hhd & _)|(mid & _ & Hevs)].
    { exfalso. apply (Hannounced m). rewrite Hhd, elem_of_app, elem_of_cons.
      auto. }
    pose proof (turns_testing _ _ _ _ _ Hturns Hevs) as Htested.
    rewrite Hlisted in Htested. destruct Htested as [data' Hwritten].
    apply (Hfiles m data'). rewrite Hevs, elem_of_app. auto.
  - intros m summary Hfield.
    destruct (Hsum m summary Hfield) as (qs & rs & HQ & Hlen & Hw & ->).
    exists qs, rs. split_and!; [done|done| |done|].
    + rewrite elem_of_app. auto.
    + intros ->. destruct rs; [reflexivity|done].
  - intros m data' [Hc|Hc]%elem_of_app; [|by eapply Hfiles].
    apply Hhead in Hc. by apply resultPath_not_final in Hc.
Qed.

(** C5, as the code has it: in batch mode a write that fails, be it of the
    result file of a model or of the final report, is the last thing the
    run does: the error goes to the handler of the script, which logs it,
    and nothing follows; the models that remain are not tested and no
    final report is written after it. *)
Theorem failed_write_ends_run files pre path data post msg :
  trace (final rt svc dir Q (initial files)) = pre ++ EvWrite path data :: post →
  write_error svc (rev pre) path data = Some msg →
  post = [EvLog (UnexpectedError msg)].
Proof.
  intros Htrace%trace_split Herr.
  destruct (final_run files) as (w & _ & Hfinal & Hshape).
  rewrite Hfinal in Htrace. clear Hfinal.
  assert (Hpost : rev post = [EvLog (UnexpectedError msg)]);
    [|by rewrite <- (rev_involutive post), Hpost].
  destruct Hshape as [(evs & models & start & stop & last & _ & Hsucc & _
                        & _ & Hev & Hlast)
                     |[(msg' & w' & (done & path' & d & earlier & _ & _
                                    & _ & Hev' & Herr' & Hsucc) & Hev)
                      |(msg' & w' & (done & model & part & evs & _ & _ & _
                                     & Hev' & Hpart & Hsucc & _) & Hev)]].
  - rewrite Hev in Htrace. clear Hev.
    destruct (rev post) as [|e1 [|e2 [|e3 later]]]; cbn in Htrace; simplify_eq.
    + match goal with H : _ = rev pre |- _ => rewrite <- H in Herr end.
      by rewrite Herr.
    + by rewrite (Hsucc later path data (rev pre) eq_refl) in Herr.
  - rewrite Hev, Hev' in Htrace. clear Hev Hev'.
    destruct (rev post) as [|e1 [|e2 later]]; cbn in Htrace; simplify_eq.
    + congruence.
    + by rewrite (Hsucc later path data (rev pre) eq_refl) in Herr.
  - exfalso. rewrite Hev, Hev', app_comm_cons in Htrace.
    apply split_app_event in Htrace as [(mid & Hhd & _)|(mid & _ & Hevs)].
    + assert (Hin : EvWrite path data ∈ EvLog (UnexpectedError msg') :: part)
        by (rewrite Hhd, elem_of_app, elem_of_cons; auto).
      apply elem_of_cons in Hin as [?|Hin]; [done|].
      by apply (turn_event_no_write model part path data Hpart) in Hin.
    + by rewrite (Hsucc mid path data (rev pre) Hevs) in Herr.
Qed.

Lemma listed_unreachable h m :
  (∀ h, ∃ msg, list_reply svc h = inr msg) → listed svc h m = false.
Proof. intros H. unfold listed. by destruct (H h) as [msg ->]. Qed.

Lemma skip_all ms i models w :
  (∀ h, ∃ msg, list_reply svc h = inr msg) →
  for_entries (λ s (_ : nat) x, testModel rt svc dir Q s x) i models ms w
  = (Ret models,
     {| fs := fs w; events := concat (map skip_events (rev ms)) ++ events w |}).
Proof.
  intros Hdown. revert i w. induction ms as [|m ms IH]; intros i w.
  - by destruct w.
  - cbn [for_entries]. unfold mbind, M_bind.
    destruct (testModel_turn models m w)
      as [[_ ->]|[(Htrue & _)|(Htrue & _)]].
    + rewrite IH. cbn [fs events rev]. do 2 f_equal.
      rewrite map_app, concat_app. cbn [map concat].
      by rewrite app_nil_r, <- app_assoc.
    + by rewrite listed_unreachable in Htrue.
    + by rewrite listed_unreachable in Htrue.
Qed.

(** C10: [isModelAvailable] never raises, and answers false when the query
    for the installed models fails; so when the chat service cannot be
    reached, batch mode skips every model and still writes the final
    report, with an empty models mapping, instead of aborting. *)
Theorem unreachable_service_skips_all files :
  (∀ m w, ∃ b, isModelAvailable svc m w = (Ret b, emit EvList w))
  ∧ (∀ m w msg,
       list_reply svc (events w) = inr msg →
       isModelAvailable svc m w = (Ret false, emit EvList w))
  ∧ ((∀ h, ∃ msg, list_reply svc h = inr msg) →
     ∃ start stop,
       let report := FileJson (finalReport start [] stop) in
       let before := EvNow :: all_skipped MODELS in
       main rt svc dir Q (initial files)
       = match write_error svc before (finalReportPath dir) report with
         | None =>
             (Ret tt,
              {| fs := <[finalReportPath dir := report]> files;
                 events := EvLog AllComplete
                           :: EvWrite (finalReportPath dir) report :: before |})
         | Some msg =>
             (Ret tt,
              {| fs := files;
                 events := EvLog (UnexpectedError msg)
                           :: EvWrite (finalReportPath dir) report :: before |})
         end).
Proof.
  split_and!.
  - intros m w. rewrite isModelAvailable_run. eauto.
  - intros m w msg Hfail. rewrite isModelAvailable_run. unfold listed.
    by rewrite Hfail.
  - intros Hdown.
    exists (now_iso svc []), (now_iso svc (all_skipped MODELS)). cbn zeta.
    unfold main, runTests, runTestsOn, for_of.
    unfold try_catch, mbind at 1 2, M_bind at 1 2, Date_toISOString at 1, emit,
      initial.
    cbn [events fs]. rewrite skip_all by done. run_monad.
    fold (all_skipped MODELS).
    destruct (write_error svc _ _ _); reflexivity.
Qed.
(** *** More on the batch runner *)

Lemma string_prefix_trans (a b c : string) :
  String.prefix a b = true → String.prefix b c = true →
  String.prefix a c = true.
Proof.
  revert b c. induction a as [|x a IH]; intros b c; [by destruct c|].
  destruct b as [|y b]; [done|]. destruct c as [|z c]; [done|].
  cbn. destruct (ascii_dec x y) as [->|]; [|done].
  destruct (ascii_dec y z) as [->|]; [|done]. apply IH.
Qed.

(** X6. The availability check matches by prefix, so it accepts every shorter
    name as well: when [model] is found available, so is, at the same
    moment, any name that [model] starts with. *)
Theorem available_under_shorter_name model shorter w :
  String.prefix shorter model = true →
  (isModelAvailable svc model w).1 = Ret true →
  (isModelAvailable svc shorter w).1 = Ret true.
Proof.
  rewrite !isModelAvailable_run. cbn [fst]. unfold listed.
  intros Hshort [= Hfound]. f_equal.
  destruct (list_reply svc (events w)) as [names|]; [|done].
  apply existsb_exists in Hfound as (name & Hin & Hname).
  apply existsb_exists. exists name. split; [done|].
  by apply (string_prefix_trans shorter model name).
Qed.


Lemma field_not_key {A} (k : string) (l : list (string * A)) :
  k ∉ map fst l → field k l = None.
Proof.
  induction l as [|[k' v] l IH]; [done|]. cbn.
  rewrite not_elem_of_cons. intros [Hne Hl].
  destruct (String.eqb_spec k k'); [done|]. by apply IH.
Qed.

Lemma obj_set_new {A} (k : string) (v : A) (l : list (string * A)) :
  field k l = None → obj_set k v l = l ++ [(k, v)].
Proof.
  induction l as [|[k' v'] l IH]; [done|]. cbn.
  destruct (String.eqb_spec k k'); [done|]. intros H. by rewrite IH.
Qed.

(** What the loop over the models keeps true of the files and of the
    report, from a world [w0]. *)
Lemma models_loop_files ms w0 :
  NoDup ms → events w0 = [EvNow] →
  match for_of (testModel rt svc dir Q) [] ms w0 with
  | (Ret models, w) =>
      tested (rev (events w)) = ms
      ∧ map fst models `sublist_of` ms
      ∧ (∀ p, (∀ m, m ∈ ms → p ≠ resultPath dir m) → fs w !! p = fs w0 !! p)
      ∧ (∀ m s, field m models = Some s →
           ∃ qs rs, Q = JArr qs
                    ∧ length rs = length qs
                    ∧ fs w !! resultPath dir m = Some (resultsData rt qs rs)
                    ∧ s = summary_as_built rt qs m rs)
      ∧ (∀ m, m ∈ ms →
           EvLog (ModelNotFound m) ∈ events w ∧ field m models = None
           ∨ is_Some (field m models))
      ∧ (∀ p d, EvWrite p d ∈ events w → ∃ m, p = resultPath dir m)
  | (Throw msg, w) =>
      (∃ done, tested (rev (events w)) = done ∧ ∃ rest, ms = done ++ rest)
      ∧ (∀ p, (∀ m, m ∈ ms → p ≠ resultPath dir m) → fs w !! p = fs w0 !! p)
      ∧ (∀ p d, EvWrite p d ∈ events w → ∃ m, p = resultPath dir m)
      ∧ ((∃ h p d, write_error svc h p d = Some msg) ∨ questions_raise Q)
  | (Exit _, _) => False
  end.
Proof.
  intros Hnodup Hw0.
  apply (for_entries_rule (λ s _ x, testModel rt svc dir Q s x)
           (λ done models w,
              tested (rev (events w)) = done
              ∧ map fst models `sublist_of` done
              ∧ (∀ p, (∀ m, m ∈ done → p ≠ resultPath dir m) →
                   fs w !! p = fs w0 !! p)
              ∧ (∀ m s, field m models = Some s →
                   ∃ qs rs, Q = JArr qs
                            ∧ length rs = length qs
                            ∧ fs w !! resultPath dir m
                              = Some (resultsData rt qs rs)
                            ∧ s = summary_as_built rt qs m rs)
              ∧ (∀ m, m ∈ done →
                   EvLog (ModelNotFound m) ∈ events w ∧ field m models = None
                   ∨ is_Some (field m models))
              ∧ (∀ p d, EvWrite p d ∈ events w → ∃ m, p = resultPath dir m))
           (λ msg w,
              (∃ done, tested (rev (events w)) = done
                       ∧ ∃ rest, ms = done ++ rest)
              ∧ (∀ p, (∀ m, m ∈ ms → p ≠ resultPath dir m) →
                   fs w !! p = fs w0 !! p)
              ∧ (∀ p d, EvWrite p d ∈ events w → ∃ m, p = resultPath dir m)
              ∧ ((∃ h p d, write_error svc h p d = Some msg)
                 ∨ questions_raise Q))
           (λ _ _, False)).
  - intros done x rest models w Hms
      (Htested & Hkeys & Hframe & Hfiles & Hall & Hwrites).
    assert (Hfresh : x ∉ done).
    { rewrite Hms in Hnodup. apply NoDup_app in Hnodup as (_ & Hfresh & _).
      intros Hx. apply (Hfresh x Hx). by left. }
    assert (Hsub : ∀ m, m ∈ done ++ [x] → m ∈ ms).
    { intros m Hm. rewrite Hms.
      apply elem_of_app in Hm as [?|Hm]; apply elem_of_app; [by left|right].
      apply list_elem_of_singleton in Hm as ->. by left. }
    assert (Hnew : field x models = None).
    { apply field_not_key. intros Hx. apply Hfresh.
      by eapply elem_of_sublist. }
    destruct (testModel_turn models x w)
      as [[_ ->]
         |[(_ & qs & rs & loop & HQ & Hqs & Hlen & Hloop & Hbar & Hrun)
          |(_ & Hraise & msg & part & -> & Hpart & Hannounce)]]; cbn [events fs].
    + split_and!.
      * by rewrite rev_app_distr, tested_app, Htested.
      * by apply sublist_inserts_r.
      * intros p Hp. apply Hframe. intros m Hm. apply Hp.
        apply elem_of_app. by left.
      * done.
      * intros m [Hm|Hm]%elem_of_app.
        -- destruct (Hall m Hm) as [[Hlog Hnone]|Hsome]; [left|by right].
           split; [|done]. rewrite elem_of_app. auto.
        -- apply list_elem_of_singleton in Hm as ->. left.
           split; [|done]. rewrite elem_of_app. left. by left.
      * intros p d [Hin|Hin]%elem_of_app; [|by eapply Hwrites].
        unfold skip_events in Hin. rewrite !elem_of_cons, elem_of_nil in Hin.
        by destruct Hin as [?|[?|[?|[]]]].
    + cbn zeta in Hrun. rewrite Hrun. clear Hrun.
      assert (Htested' : tested (rev (EvWrite (resultPath dir x)
                                        (resultsData rt qs rs)
                                      :: turn_events qs x loop ++ events w))
                         = done ++ [x]).
      { cbn [rev]. rewrite tested_app, rev_app_distr, tested_app, Htested,
          (tested_turn_events qs x loop Hloop). cbn. by rewrite app_nil_r. }
      assert (Hwrites' : ∀ p d,
                 EvWrite p d ∈ EvWrite (resultPath dir x) (resultsData rt qs rs)
                                :: turn_events qs x loop ++ events w →
                 ∃ m, p = resultPath dir m).
      { intros p d [Heq|Hin]%elem_of_cons.
        - injection Heq as -> _. by eexists.
        - apply elem_of_app in Hin as [Hin|Hin]; [|by eapply Hwrites].
          by apply turn_events_no_write in Hin. }
      destruct (write_error svc _ _ _) as [msg|] eqn:Herr; cbn [events fs].
      * split_and!;
          [|intros p Hp; apply Hframe; intros m Hm; apply Hp|done|by eauto 6].
        -- exists (done ++ [x]). split; [done|]. exists rest.
           rewrite Hms. by rewrite <- app_assoc.
        -- rewrite Hms. apply elem_of_app. by left.
      * split_and!; [done| | | | |done].
        -- rewrite (obj_set_new _ _ _ Hnew), map_app. by apply sublist_app.
        -- intros p Hp. rewrite lookup_insert_ne.
           ++ apply Hframe. intros m Hm. apply Hp. apply elem_of_app. by left.
           ++ intros Heq. apply (Hp x); [|done].
              rewrite elem_of_app, list_elem_of_singleton. by right.
        -- intros m s. rewrite field_obj_set.
           destruct (String.eqb_spec m x) as [->|Hne].
           ++ intros [= <-]. exists qs, rs. by rewrite lookup_insert_eq.
           ++ intros Hm. destruct (Hfiles m s Hm) as (qs' & rs' & ? & ? & ? & ?).
              exists qs', rs'. split_and!; [done|done| |done].
              rewrite lookup_insert_ne; [done|].
              intros Heq%resultPath_inj. by subst.
        -- intros m Hm. rewrite field_obj_set.
           destruct (String.eqb_spec m x) as [->|Hne]; [by right|].
           apply elem_of_app in Hm as [Hm|Hm];
             [|by apply list_elem_of_singleton in Hm].
           destruct (Hall m Hm) as [[Hlog Hnone]|Hsome]; [left|by right].
           split; [|done]. rewrite elem_of_cons, elem_of_app. auto.
    + split_and!.
      * exists (done ++ [x]). split.
        -- by rewrite rev_app_distr, tested_app, Htested, Hannounce.
        -- exists rest. rewrite Hms. by rewrite <- app_assoc.
      * intros p Hp. apply Hframe. intros m Hm. apply Hp.
        rewrite Hms. apply elem_of_app. by left.
      * intros p d [Hin|Hin]%elem_of_app; [|by eapply Hwrites].
        by apply (turn_event_no_write x part p d Hpart) in Hin.
      * by right.
  - rewrite Hw0. split_and!; [done|apply sublist_nil_l|done|done| |].
    + intros m Hm. by apply elem_of_nil in Hm.
    + intros p d Hin. by apply list_elem_of_singleton in Hin.
Qed.

(** The files and the history at the end of a run. *)
Lemma final_files files :
  ∃ w, final rt svc dir Q (initial files) = w ∧
  ((∃ models start stop w1,
     tested (rev (events w1)) = MODELS
     ∧ map fst models `sublist_of` MODELS
     ∧ (∀ p, (∀ m, m ∈ MODELS → p ≠ resultPath dir m) → fs w1 !! p = files !! p)
     ∧ (∀ m s, field m models = Some s →
          ∃ qs rs, Q = JArr qs
                   ∧ length rs = length qs
                   ∧ fs w1 !! resultPath dir m = Some (resultsData rt qs rs)
                   ∧ s = summary_as_built rt qs m rs)
     ∧ (∀ m, m ∈ MODELS →
          EvLog (ModelNotFound m) ∈ events w1 ∧ field m models = None
          ∨ is_Some (field m models))
     ∧ (∀ p d, EvWrite p d ∈ events w1 → ∃ m, p = resultPath dir m)
     ∧ w
       = match write_error svc (EvNow :: events w1) (finalReportPath dir)
                 (JSON_stringify (finalReport start models stop)) with
         | None =>
             {| fs := <[finalReportPath dir
                        := JSON_stringify (finalReport start models stop)]>
                        (fs w1);
                events := EvLog AllComplete
                          :: EvWrite (finalReportPath dir)
                               (JSON_stringify (finalReport start models stop))
                          :: EvNow :: events w1 |}
         | Some msg =>
             {| fs := fs w1;
                events := EvLog (UnexpectedError msg)
                          :: EvWrite (finalReportPath dir)
                               (JSON_stringify (finalReport start models stop))
                          :: EvNow :: events w1 |}
         end)
  ∨ (∃ msg w1,
       (∃ rest, MODELS = tested (rev (events w1)) ++ rest)
       ∧ (∀ p, (∀ m, m ∈ MODELS → p ≠ resultPath dir m) → fs w1 !! p = files !! p)
       ∧ (∀ p d, EvWrite p d ∈ events w1 → ∃ m, p = resultPath dir m)
       ∧ ((∃ h p d, write_error svc h p d = Some msg) ∨ questions_raise Q)
       ∧ w
         = {| fs := fs w1;
              events := EvLog (UnexpectedError msg) :: events w1 |})).
Proof.
  unfold final, main, runTests, runTestsOn.
  unfold try_catch, mbind at 1, M_bind at 1, Date_toISOString at 1, emit, initial.
  cbn [events fs].
  pose proof (models_loop_files MODELS {| fs := files; events := [EvNow] |}
                NoDup_MODELS eq_refl) as Hloop.
  unfold mbind at 1, M_bind at 1.
  destruct (for_of _ _ MODELS _) as [[models|msg|c] w1]; [| |destruct Hloop].
  - destruct Hloop as (Htested & Hkeys & Hframe & Hfiles & Hall & Hwrites).
    eexists. split; [reflexivity|].
    left. exists models, (now_iso svc []), (now_iso svc (events w1)), w1.
    split_and!; [done..|]. run_monad.
    by destruct (write_error svc _ _ _).
  - destruct Hloop as ((done & Htested & rest & Hrest) & Hframe & Hwrites
                       & Hfailed).
    eexists. split; [reflexivity|].
    right. exists msg, w1. split_and!; [|done..|by run_monad].
    exists rest. by rewrite Htested.
Qed.

(** X8. The models are tested in the order of [MODELS], each one once: the
    models that a run announces are the first ones of that list. *)
Theorem models_tested_in_order files :
  ∃ rest, MODELS = tested (trace (final rt svc dir Q (initial files))) ++ rest.
Proof.
  unfold trace.
  destruct (final_files files)
    as (w & -> & [(models & start & stop & w1 & Htested & _ & _ & _ & _ & _
                   & ->)
                 |(msg & w1 & [rest Htested] & _ & _ & _ & ->)]).
  - exists []. rewrite app_nil_r.
    destruct (write_error svc _ _ _); cbn [events rev];
      by rewrite !tested_app, Htested.
  - exists rest. cbn [events rev]. rewrite tested_app. cbn.
    by rewrite app_nil_r.
Qed.

(** The write of a final report of a run that got that far. *)
Lemma final_report_written files data :
  EvWrite (finalReportPath dir) data
  ∈ events (final rt svc dir Q (initial files)) →
  ∃ models start stop w1,
    data = JSON_stringify (finalReport start models stop)
    ∧ map fst models `sublist_of` MODELS
    ∧ (∀ m s, field m models = Some s →
         ∃ qs rs, Q = JArr qs
                  ∧ length rs = length qs
                  ∧ fs w1 !! resultPath dir m = Some (resultsData rt qs rs)
                  ∧ s = summary_as_built rt qs m rs)
    ∧ (fs (final rt svc dir Q (initial files)) = fs w1
       ∨ fs (final rt svc dir Q (initial files))
         = <[finalReportPath dir := data]> (fs w1)).
Proof.
  destruct (final_files files)
    as (w & -> & [(models & start & stop & w1 & _ & Hkeys & _ & Hfiles & _
                   & Hwrites & ->)
                 |(msg & w1 & _ & _ & Hwrites & _ & ->)]).
  - intros Hin.
    assert (Hin' : EvWrite (finalReportPath dir) data
                   ∈ EvWrite (finalReportPath dir)
                       (JSON_stringify (finalReport start models stop))
                     :: EvNow :: events w1).
    { destruct (write_error svc _ _ _); cbn [events] in Hin;
        by apply elem_of_cons in Hin as [?|?]. }
    assert (data = JSON_stringify (finalReport start models stop)) as ->.
    { apply elem_of_cons in Hin' as [Heq|Hin']; [by injection Heq|].
      apply elem_of_cons in Hin' as [?|Hin']; [done|].
      destruct (Hwrites _ _ Hin') as [m Heq]. symmetry in Heq.
      by apply resultPath_not_final in Heq. }
    exists models, start, stop, w1. split_and!; [done..|].
    destruct (write_error svc _ _ _); cbn [fs]; auto.
  - cbn [events]. intros [?|Hin]%elem_of_cons; [done|].
    destruct (Hwrites _ _ Hin) as [m Heq]. symmetry in Heq.
    by apply resultPath_not_final in Heq.
Qed.

(** X9. The keys of the models mapping of a final report are model names of
    [MODELS], without repetition and in the order of that list, in the
    mapping that the run built as in what was written of it. *)
Theorem report_keys_in_order files data :
  EvWrite (finalReportPath dir) data
  ∈ events (final rt svc dir Q (initial files)) →
  map fst (report_models data) `sublist_of` MODELS
  ∧ ∃ start models stop,
      data = JSON_stringify (finalReport start models stop)
      ∧ map fst models `sublist_of` MODELS
      ∧ ∀ start' models' stop',
          data = JSON_stringify (finalReport start' models' stop') →
          map fst models' `sublist_of` MODELS.
Proof.
  intros Hin.
  destruct (final_report_written files data Hin)
    as (models & start & stop & w1 & -> & Hkeys & _).
  assert (Hwritten : map fst (report_models
                                (JSON_stringify (finalReport start models stop)))
                     `sublist_of` MODELS)
    by (by rewrite report_models_written, printed_keys).
  split; [done|]. exists start, models, stop. split_and!; [done..|].
  intros start' models' stop' Heq. rewrite Heq in Hwritten.
  by rewrite report_models_written, printed_keys in Hwritten.
Qed.

(** X10. A batch run touches no file but the result files of the models and the
    final report: every other path holds at the end what it held at the
    start. *)
Theorem batch_run_leaves_other_files files p :
  (∀ m, m ∈ MODELS → p ≠ resultPath dir m) →
  p ≠ finalReportPath dir →
  fs (final rt svc dir Q (initial files)) !! p = files !! p.
Proof.
  intros Hp Hfinal.
  destruct (final_files files)
    as (w & -> & [(models & start & stop & w1 & _ & _ & Hframe & _ & _ & _ & ->)
                 |(msg & w1 & _ & Hframe & _ & _ & ->)]).
  - destruct (write_error svc _ _ _); cbn [fs];
      rewrite ?lookup_insert_ne by done; by apply Hframe.
  - by apply Hframe.
Qed.

(** X11. The final report and the result files agree: for every model that a
    written report summarises, the result file of that model is on disk at
    the end of the run, holds one entry per question, and the summary is
    computed from the scores it records. *)
Theorem report_matches_files_on_disk files data :
  EvWrite (finalReportPath dir) data
  ∈ events (final rt svc dir Q (initial files)) →
  ∃ start models stop,
    data = JSON_stringify (finalReport start models stop)
    ∧ ∀ m summary,
        field m models = Some summary →
        ∃ qs rs,
          Q = JArr qs
          ∧ length rs = length qs
          ∧ fs (final rt svc dir Q (initial files)) !! resultPath dir m
            = Some (JSON_stringify
                      (JArr (zip_with (recordedEntry rt) qs rs)))
          ∧ summary = summary_as_built rt qs m rs.
Proof.
  intros Hin.
  destruct (final_report_written files data Hin)
    as (models & start & stop & w1 & -> & _ & Hfiles & Hfs).
  exists start, models, stop. split; [done|]. intros m summary Hfield.
  destruct (Hfiles m summary Hfield) as (qs & rs & HQ & Hlen & Hfile & ->).
  exists qs, rs. split_and!; [done|done| |done].
  destruct Hfs as [->| ->]; [done|].
  rewrite lookup_insert_ne; [done|].
  intros Heq. by apply (resultPath_not_final dir m).
Qed.


(** With questions that make a turn raise, the turns that were completed
    are all of models that were skipped. *)
Lemma turns_all_skipped done evs :
  questions_raise Q → turns rt svc dir Q done evs →
  (∀ path data, EvWrite path data ∉ evs)
  ∧ ∀ m, m ∈ done → EvLog (ModelNotFound m) ∈ evs.
Proof.
  intros Hraise. induction 1 as [|done evs model seg Hturns [IHw IHm] Hturn].
  - split; [|by intros m ?%elem_of_nil].
    intros path data Hin. by apply list_elem_of_singleton in Hin.
  - destruct Hturn as [Hcheck|qs rs loop Hcheck HQ Hqs Hlen Hloop Hbar].
    + split.
      * intros path data [Hin|Hin]%elem_of_app; [|by eapply IHw].
        unfold skip_events in Hin. rewrite !elem_of_cons, elem_of_nil in Hin.
        by destruct Hin as [?|[?|[?|[]]]].
      * intros m [Hm|Hm]%elem_of_app; rewrite elem_of_app.
        -- right. by apply IHm.
        -- apply list_elem_of_singleton in Hm as ->. left. by left.
    + exfalso. unfold questions_raise in Hraise. rewrite HQ in Hraise.
      by apply (proj1 (Forall_forall _ _) Hqs) in Hraise.
Qed.

(** X18. A questions file that is not an array, or that holds a [null],
    costs every result: no result file is ever written, and a final report
    is written only if every model was reported as not found, with an
    empty models mapping. *)
Theorem unusable_questions_no_results files :
  questions_raise Q →
  (∀ m data,
     EvWrite (resultPath dir m) data
     ∉ events (final rt svc dir Q (initial files)))
  ∧ (∀ data,
       EvWrite (finalReportPath dir) data
       ∈ events (final rt svc dir Q (initial files)) →
       (∃ start stop, data = JSON_stringify (finalReport start [] stop))
       ∧ ∀ m, m ∈ MODELS →
           EvLog (ModelNotFound m)
           ∈ events (final rt svc dir Q (initial files))).
Proof.
  intros Hraise.
  destruct (final_turns files)
    as (done & evs & head & Hnodup & Hturns & -> & Hhead & Hquiet & Hwarn
        & Hreport).
  destruct (turns_all_skipped done evs Hraise Hturns) as [Hnone Hskipped].
  split.
  - intros m data [Hin|Hin]%elem_of_app; [|by apply Hnone in Hin].
    apply Hhead in Hin. by apply resultPath_not_final in Hin.
  - intros data [Hin|Hin]%elem_of_app; [|by apply Hnone in Hin].
    destruct (Hreport data Hin)
      as (-> & _ & start & models & stop & -> & Hsum & _).
    split.
    + exists start, stop. destruct models as [|[k v] models]; [done|].
      exfalso. destruct (Hsum k v) as (qs & rs & _ & _ & Hw & _).
      * cbn. by rewrite String.eqb_refl.
      * by apply Hnone in Hw.
    + intros m Hm. rewrite elem_of_app. right. by apply Hskipped.
Qed.

End BatchRun.

(** ** askOllama.js *)

Section SingleRun.

Import AskOllama.

Variable svc : Service.

Lemma initResultsFile_run w :
  initResultsFile svc w
  = match fs w !! RESULTS_FILE with
    | Some _ => (Ret tt, w)
    | None => writeFile svc RESULTS_FILE (FileJson (JArr [])) w
    end.
Proof.
  unfold initResultsFile, try_catch, access.
  by destruct (fs w !! RESULTS_FILE).
Qed.

Lemma checkOllama_run w :
  checkOllama svc w
  = match chat_reply svc (events w) MODEL_NAME (Some (JStr (lit "ping")))
            (Some 5000) with
    | inl _ => (Ret true, emit ping w)
    | inr msg => (Exit 1, emit (EvLog (ConnectionFailed msg)) (emit ping w))
    end.
Proof.
  unfold checkOllama. run_monad.
  by destruct (chat_reply svc _ _ _ _).
Qed.

Lemma failed_questions_app evs1 evs2 :
  failed_questions (evs1 ++ evs2) = failed_questions evs1 ++ failed_questions evs2.
Proof. apply omap_app. Qed.

(** When every chat request for a question fails, a turn of the loop logs
    the failure of its question and leaves everything else as it was. *)
Lemma askQuestion_fails total cur index q w :
  (∀ h c, ∃ msg, chat_reply svc h MODEL_NAME c (Some 30000) = inr msg) →
  ∃ seg,
    askQuestion svc total cur index q w
    = (Ret cur, {| fs := fs w; events := seg ++ events w |})
    ∧ failed_questions (rev seg) = [(index + 1)%nat]
    ∧ ∀ path data, EvWrite path data ∉ seg.
Proof.
  intros Hfail. unfold askQuestion.
  destruct q as [|b|x|s|items|fields]; unfold property; run_monad.
  1: { eexists [_]. split_and!; [done..|].
       intros ? ? ?%list_elem_of_singleton. done. }
  all: match goal with
       | |- context [chat_reply svc ?h MODEL_NAME ?c (Some 30000)] =>
           destruct (Hfail h c) as [msg ->]
       end; cbn [events fs];
    eexists [_; _; _]; split_and!; [done..|];
    intros ? ?; rewrite !elem_of_cons, elem_of_nil;
    intros [?|[?|[?|[]]]]; done.
Qed.

Lemma ask_all_fail total cur items i w :
  (∀ h c, ∃ msg, chat_reply svc h MODEL_NAME c (Some 30000) = inr msg) →
  ∃ seg,
    for_entries (askQuestion svc total) i cur items w
    = (Ret cur, {| fs := fs w; events := seg ++ events w |})
    ∧ failed_questions (rev seg) = seq (i + 1) (length items)
    ∧ ∀ path data, EvWrite path data ∉ seg.
Proof.
  intros Hfail. revert i w. induction items as [|q items IH]; intros i w.
  - exists []. destruct w. split_and!; [reflexivity..|].
    intros ? ? ?%elem_of_nil. done.
  - cbn [for_entries]. unfold mbind, M_bind.
    destruct (askQuestion_fails total cur i q w Hfail) as (seg1 & -> & Hlog1 & Hw1).
    destruct (IH (S i) {| fs := fs w; events := seg1 ++ events w |})
      as (seg2 & -> & Hlog2 & Hw2).
    exists (seg2 ++ seg1). cbn [fs events]. split_and!.
    + by rewrite <- app_assoc.
    + rewrite rev_app_distr, failed_questions_app, Hlog1, Hlog2.
      reflexivity.
    + intros path data [?|?]%elem_of_app; [by eapply Hw2|by eapply Hw1].
Qed.

(** Whatever the question, a chat request that fails is followed by the
    line that reports it and by nothing else: the turn ends without the
    delay. *)
Lemma askQuestion_failure_no_delay total cur index q english msg w :
  property q "english" w = (Ret english, w) →
  chat_reply svc (EvLog (AskingQuestion (index + 1) total english) :: events w)
    MODEL_NAME english (Some 30000) = inr msg →
  askQuestion svc total cur index q w
  = (Ret cur,
     {| fs := fs w;
        events := [EvLog (QuestionFailed (index + 1) msg);
                   EvChat MODEL_NAME english (Some 30000);
                   EvLog (AskingQuestion (index + 1) total english)]
                  ++ events w |}).
Proof.
  intros Hprop Hfail. unfold askQuestion.
  destruct q as [|b|x|s|items|fields];
    unfold property, mret, M_ret, throw in Hprop; simplify_eq;
    unfold property; run_monad; cbn [own] in *; by rewrite Hfail.
Qed.

Lemma ready_questions files :
  fs (ready files) !! QUESTIONS_FILE = files !! QUESTIONS_FILE.
Proof.
  unfold ready. destruct (files !! RESULTS_FILE); [done|].
  cbn [fs]. by rewrite lookup_insert_ne.
Qed.

Lemma ready_results files :
  fs (ready files) !! RESULTS_FILE
  = Some (match files !! RESULTS_FILE with
          | Some f => f
          | None => FileJson (JArr [])
          end).
Proof.
  unfold ready. destruct (files !! RESULTS_FILE) eqn:H; cbn [fs initial].
  - done.
  - by rewrite lookup_insert_eq.
Qed.

Lemma initResultsFile_ready files :
  (files !! RESULTS_FILE = None →
   write_error svc [] RESULTS_FILE (FileJson (JArr [])) = None) →
  initResultsFile svc (initial files) = (Ret tt, ready files).
Proof.
  unfold ready. rewrite initResultsFile_run. cbn [fs initial].
  destruct (files !! RESULTS_FILE) as [f|]; [done|].
  intros Hw. unfold writeFile, initial. cbn [events fs]. by rewrite Hw.
Qed.

Lemma results_ready_created files :
  results_ready svc files →
  files !! RESULTS_FILE = None →
  write_error svc [] RESULTS_FILE (FileJson (JArr [])) = None.
Proof. unfold results_ready. intros H Hn. by rewrite Hn in H. Qed.

Lemma main_all_fail files items :
  files !! QUESTIONS_FILE = Some (FileJson (JArr items)) →
  results_ready svc files →
  (∃ text, chat_reply svc (events (ready files)) MODEL_NAME
             (Some (JStr (lit "ping"))) (Some 5000) = inl text) →
  (∀ h c, ∃ msg, chat_reply svc h MODEL_NAME c (Some 30000) = inr msg) →
  ∃ seg,
    main svc (initial files)
    = (Ret tt, {| fs := fs (ready files);
                  events := seg ++ ping :: events (ready files) |})
    ∧ failed_questions (rev seg) = seq 1 (length items)
    ∧ ∀ path data, EvWrite path data ∉ seg.
Proof.
  intros Hq Hr Hping Hfail.
  unfold main, processQuestions, try_catch.
  unfold mbind at 1 2, M_bind at 1 2.
  rewrite (initResultsFile_ready files (results_ready_created files Hr)),
    checkOllama_run.
  destruct Hping as [text ->].
  unfold mbind at 1, M_bind at 1, readJson at 1, emit. cbn [fs events].
  rewrite ready_questions, Hq.
  unfold mbind at 1, M_bind at 1, readJson at 1. cbn [fs events].
  rewrite ready_results.
  assert (∃ v, match files !! RESULTS_FILE with
               | Some f => f
               | None => FileJson (JArr [])
               end = FileJson v) as [v ->].
  { unfold results_ready in Hr.
    destruct (files !! RESULTS_FILE) as [[v|]|]; [by exists v|done|by eexists]. }
  unfold mbind at 1, M_bind at 1, entries, mret at 1, M_ret at 1.
  unfold mbind at 1, M_bind at 1.
  destruct (ask_all_fail (length items) v items 0
              {| fs := fs (ready files); events := ping :: events (ready files) |}
              Hfail) as (seg & -> & Hlog & Hw).
  exists seg. done.
Qed.

(** C3, as the code has it.  First part: for a questions file with N
    entries, when the connection check at startup succeeds and every chat
    request for a question fails, single-model mode adds no entry to
    results.json (the file stays as it was made ready: what it held, or the
    empty array if it was absent, and nothing is written after that), logs
    N failures, one per question in order, and the process exits with code
    0.  Second part: when the connection check fails, the run logs the
    connection failure right after the request of the check and exits with
    code 1; nothing else happens, no failure of a question is logged and
    no file changes after results.json was made ready. *)
Theorem all_questions_fail files :
  (∀ items,
     files !! QUESTIONS_FILE = Some (FileJson (JArr items)) →
     results_ready svc files →
     (∃ text, chat_reply svc (events (ready files)) MODEL_NAME
                (Some (JStr (lit "ping"))) (Some 5000) = inl text) →
     (∀ h c, ∃ msg, chat_reply svc h MODEL_NAME c (Some 30000) = inr msg) →
     exit_code svc (initial files) = 0
     ∧ failed_questions (trace (final svc (initial files)))
       = seq 1 (length items)
     ∧ fs (final svc (initial files)) !! RESULTS_FILE
       = Some (match files !! RESULTS_FILE with
               | Some f => f
               | None => FileJson (JArr [])
               end)
     ∧ ∀ path data,
         EvWrite path data ∈ trace (final svc (initial files)) →
         files !! RESULTS_FILE = None ∧ data = FileJson (JArr []))
  ∧ (∀ msg,
       results_ready svc files →
       chat_reply svc (events (ready files)) MODEL_NAME
         (Some (JStr (lit "ping"))) (Some 5000) = inr msg →
       exit_code svc (initial files) = 1
       ∧ trace (final svc (initial files))
         = trace (ready files) ++ [ping; EvLog (ConnectionFailed msg)]
       ∧ failed_questions (trace (final svc (initial files))) = []
       ∧ fs (final svc (initial files)) = fs (ready files)).
Proof.
  split.
  - intros items Hq Hr Hping Hfail.
    destruct (main_all_fail files items Hq Hr Hping Hfail)
      as (seg & Hmain & Hlog & Hw).
    unfold exit_code, final, trace. rewrite Hmain. cbn [snd fs events].
    split_and!.
    + done.
    + rewrite rev_app_distr, failed_questions_app, Hlog. cbn [rev].
      rewrite failed_questions_app. unfold ready.
      by destruct (files !! RESULTS_FILE).
    + apply ready_results.
    + intros path data Hin. rewrite elem_of_rev in Hin.
      apply elem_of_app in Hin as [Hin|Hin]; [by apply Hw in Hin|].
      apply elem_of_cons in Hin as [?|Hin]; [done|].
      unfold ready in Hin. destruct (files !! RESULTS_FILE); cbn in Hin.
      * by apply elem_of_nil in Hin.
      * apply list_elem_of_singleton in Hin. by simplify_eq.
  - intros msg Hr Hping.
    assert (Hmain : main svc (initial files)
                    = (Exit 1,
                       {| fs := fs (ready files);
                          events := EvLog (ConnectionFailed msg) :: ping
                                    :: events (ready files) |})).
    { unfold main, processQuestions, try_catch.
      unfold mbind at 1 2, M_bind at 1 2.
      rewrite (initResultsFile_ready files (results_ready_created files Hr)),
        checkOllama_run, Hping. done. }
    unfold exit_code, final, trace. rewrite Hmain. cbn [snd fs events rev].
    split_and!; [done|by rewrite <- app_assoc| |done].
    rewrite !failed_questions_app. unfold ready.
    by destruct (files !! RESULTS_FILE).
Qed.

Lemma chat_requests_app evs1 evs2 :
  chat_requests (evs1 ++ evs2) = chat_requests evs1 ++ chat_requests evs2.
Proof. apply List.filter_app. Qed.

Lemma chat_requests_ready files : chat_requests (rev (events (ready files))) = [].
Proof. unfold ready. by destruct (files !! RESULTS_FILE). Qed.

Lemma failed_questions_ready files :
  failed_questions (rev (events (ready files))) = [].
Proof. unfold ready. by destruct (files !! RESULTS_FILE). Qed.

(** With a questions file that cannot be used, the run ends right after
    the connection check. *)
Lemma main_unusable files :
  questions_unusable files →
  (files !! RESULTS_FILE = None →
   write_error svc [] RESULTS_FILE (FileJson (JArr [])) = None) →
  ∃ o line,
    main svc (initial files)
    = (o, {| fs := fs (ready files);
             events := EvLog line :: ping :: events (ready files) |})
    ∧ match chat_reply svc (events (ready files)) MODEL_NAME
              (Some (JStr (lit "ping"))) (Some 5000) with
      | inl _ => o = Ret tt ∧ ∃ msg, line = Uncaught msg
      | inr msg => o = Exit 1 ∧ line = ConnectionFailed msg
      end.
Proof.
  intros Hq Hinit.
  unfold main, processQuestions, try_catch.
  unfold mbind at 1 2, M_bind at 1 2.
  rewrite (initResultsFile_ready files Hinit), checkOllama_run.
  destruct (chat_reply svc _ _ _ _) as [text|msg]; [|by eexists _, _].
  unfold mbind at 1, M_bind at 1, readJson at 1, emit. cbn [fs events].
  rewrite ready_questions. unfold questions_unusable in Hq.
  destruct (files !! QUESTIONS_FILE) as [[v|]|]; [|by run_monad; eauto 6..].
  unfold mbind at 1, M_bind at 1, readJson at 1. cbn [fs events].
  destruct (fs (ready files) !! RESULTS_FILE) as [[r|]|];
    [|by run_monad; eauto 6..].
  destruct v; try done; run_monad; eauto 6.
Qed.

(** C4, as the code has it: in single-model mode, when the questions file
    is missing, does not parse or does not hold an array (and results.json
    exists or could be created), the run issues exactly one chat request,
    the "ping" of the connection check; no request is made for any
    question and no question is reported.  If the check succeeded, the
    error is logged by the handler of the script right after the request
    of the check, as the last thing the run does, and the process ends
    with code 0; if the check failed, the connection failure is logged and
    the process exits with code 1. *)
Theorem unusable_questions_file files :
  questions_unusable files →
  (files !! RESULTS_FILE = None →
   write_error svc [] RESULTS_FILE (FileJson (JArr [])) = None) →
  chat_requests (trace (final svc (initial files))) = [ping]
  ∧ failed_questions (trace (final svc (initial files))) = []
  ∧ match chat_reply svc (events (ready files)) MODEL_NAME
            (Some (JStr (lit "ping"))) (Some 5000) with
    | inl _ =>
        exit_code svc (initial files) = 0
        ∧ ∃ msg,
            trace (final svc (initial files))
            = trace (ready files) ++ [ping; EvLog (Uncaught msg)]
    | inr msg =>
        exit_code svc (initial files) = 1
        ∧ trace (final svc (initial files))
          = trace (ready files) ++ [ping; EvLog (ConnectionFailed msg)]
    end.
Proof.
  intros Hq Hinit.
  destruct (main_unusable files Hq Hinit) as (o & line & Hmain & Hend).
  unfold exit_code, final, trace. rewrite Hmain. cbn [snd fs events rev].
  rewrite !chat_requests_app, !failed_questions_app, chat_requests_ready,
    failed_questions_ready.
  destruct (chat_reply svc _ _ _ _) as [text|msg].
  - destruct Hend as (-> & msg & ->). split_and!; [done..|].
    exists msg. by rewrite <- app_assoc.
  - destruct Hend as (-> & ->). split_and!; [done..|].
    by rewrite <- app_assoc.
Qed.

(** *** results.json only grows *)

Lemma answers_app evs1 evs2 :
  answers (evs1 ++ evs2) = (answers evs1 + answers evs2)%nat.
Proof. unfold answers. by rewrite List.filter_app, length_app. Qed.

Lemma answers_rev evs : answers (rev evs) = answers evs.
Proof.
  induction evs as [|e evs IH]; [done|].
  cbn [rev]. rewrite answers_app, IH.
  change (e :: evs) with ([e] ++ evs). rewrite answers_app. lia.
Qed.

Lemma appended_nil questions old base : appended svc questions old base [] [].
Proof. split; [done|]. by intros [|? ?] ? ? ? ?. Qed.

(** A turn that adds no entry. *)
Lemma appended_quiet questions old base seg1 seg2 produced :
  answers seg1 = 0%nat → (∀ path data, EvWrite path data ∉ seg1) →
  appended svc questions (seg1 ++ old) base seg2 produced →
  appended svc questions old base (seg2 ++ seg1) produced.
Proof.
  intros Hans Hquiet [Hlen Hwrites]. split.
  - rewrite answers_app. lia.
  - intros later path data earlier Heq.
    apply split_app_event in Heq as [(mid & Heq & ->)|(mid & -> & Heq)].
    + destruct (Hwrites _ _ _ _ Heq) as (-> & Hone & -> & Hlast).
      rewrite answers_app, Hans, Nat.add_0_r, <- app_assoc. done.
    + exfalso. apply (Hquiet path data). rewrite Heq, elem_of_app, elem_of_cons.
      auto.
Qed.

(** A turn that adds the entry [entry] and writes the file. *)
Lemma appended_entry questions old base entry head tail seg2 produced :
  answers [head] = 0%nat → (∀ path data, head ≠ EvWrite path data) →
  answers tail = 1%nat → (∀ path data, EvWrite path data ∉ tail) →
  last_answer svc questions (tail ++ old) = Some entry →
  appended svc questions
    (head :: EvWrite RESULTS_FILE (JSON_stringify (JArr (base ++ [entry])))
          :: tail ++ old)
    (base ++ [entry]) seg2 produced →
  appended svc questions old base
    (seg2 ++ head :: EvWrite RESULTS_FILE (JSON_stringify (JArr (base ++ [entry])))
          :: tail)
    (entry :: produced).
Proof.
  intros Hhead Hnohead Htail Hquiet Hnew [Hlen Hwrites]. split.
  - rewrite answers_app. change (head :: ?l) with ([head] ++ l).
    rewrite answers_app, Hhead. change (?e :: tail) with ([e] ++ tail).
    rewrite answers_app, Htail, Hlen. cbn. lia.
  - intros later path data earlier Heq.
    apply split_app_event in Heq as [(mid & Heq & ->)|(mid & -> & Heq)].
    + destruct (Hwrites _ _ _ _ Heq) as (-> & Hone & -> & Hlast).
      rewrite answers_app. change (head :: ?l) with ([head] ++ l).
      rewrite answers_app, Hhead. change (?e :: tail) with ([e] ++ tail).
      rewrite answers_app, Htail. cbn [answers List.filter length Nat.add].
      split_and!; [done|lia| |].
      * replace (answers mid + 1)%nat with (S (answers mid)) by lia.
        cbn [take]. by rewrite <- app_assoc.
      * replace (answers mid + 1 - 1)%nat with (S (answers mid - 1)) by lia.
        change ((entry :: produced) !! S (answers mid - 1))
          with (produced !! (answers mid - 1)%nat).
        rewrite Hlast. f_equal. rewrite <- app_assoc. done.
    + destruct mid as [|e1 mid]; cbn in Heq; injection Heq as Hhd Heq.
      { exfalso. by eapply Hnohead. }
      destruct mid as [|e2 mid]; cbn in Heq; injection Heq as Hhd2 Heq.
      * simplify_eq. rewrite Htail. by split_and!.
      * exfalso. apply (Hquiet path data). rewrite Heq, elem_of_app, elem_of_cons.
        auto.
Qed.

(** One turn of the loop on an array, for the question of index [index]:
    the question fails before anything is added, or the entry of its
    answer is added and the file is written (which may fail). *)
Lemma askQuestion_array questions total base index q w :
  questions !! index = Some q →
  (∃ seg,
     askQuestion svc total (JArr base) index q w
     = (Ret (JArr base), {| fs := fs w; events := seg ++ events w |})
     ∧ answers seg = 0%nat
     ∧ ∀ path data, EvWrite path data ∉ seg)
  ∨ (∃ entry head tail files',
       last_answer svc questions (tail ++ events w) = Some entry
       ∧ askQuestion svc total (JArr base) index q w
         = (Ret (JArr (base ++ [entry])),
            {| fs := files';
               events := head
                         :: EvWrite RESULTS_FILE
                              (JSON_stringify (JArr (base ++ [entry])))
                         :: tail ++ events w |})
       ∧ answers [head] = 0%nat
       ∧ (∀ path data, head ≠ EvWrite path data)
       ∧ answers tail = 1%nat
       ∧ ∀ path data, EvWrite path data ∉ tail).
Proof.
  intros Hq. unfold askQuestion.
  destruct q as [|b|x|s|items|fields]; unfold property; run_monad.
  1: { left. eexists [_]. split_and!; [done..|]. no_write_in_list. }
  all: destruct (chat_reply svc _ _ _ _) as [content|msg] eqn:Hreply;
    cbn [events fs];
    [|left; eexists [_; _; _]; split_and!; [done..|]; no_write_in_list].
  all: right; unfold push; run_monad;
    destruct (write_error svc _ _ _) as [msg|]; cbn [events fs];
    eexists _, _, [_; _; _; _], _;
    (split_and!; [|reflexivity|done|done|done|no_write_in_list]);
    cbn [app last_answer]; rewrite Nat.add_sub, Hq, Hreply; reflexivity.
Qed.

(** One turn of the loop on anything else: nothing can be added, nothing is
    written. *)
Lemma askQuestion_not_array total cur index q w :
  (∀ items, cur ≠ JArr items) →
  ∃ seg,
    askQuestion svc total cur index q w
    = (Ret cur, {| fs := fs w; events := seg ++ events w |})
    ∧ ∀ path data, EvWrite path data ∉ seg.
Proof.
  intros Hcur. unfold askQuestion.
  destruct q as [|b|x|s|items|fields]; unfold property; run_monad.
  1: { eexists [_]. split; [done|]. no_write_in_list. }
  all: destruct (chat_reply svc _ _ _ _) as [content|msg]; cbn [events fs];
    [|eexists [_; _; _]; split; [done|]; no_write_in_list].
  all: destruct cur; try (by exfalso; eapply Hcur); unfold push; run_monad;
    eexists [_; _; _; _; _]; (split; [done|]); no_write_in_list.
Qed.

Lemma drop_cons_lookup {A} (l : list A) i x rest :
  drop i l = x :: rest → l !! i = Some x ∧ drop (S i) l = rest.
Proof.
  intros H. split.
  - rewrite <- (Nat.add_0_r i), <- lookup_drop, H. done.
  - rewrite <- Nat.add_1_r, <- drop_drop, H. done.
Qed.

Lemma ask_loop_array questions total items base i w :
  drop i questions = items →
  ∃ produced seg files',
    for_entries (askQuestion svc total) i (JArr base) items w
    = (Ret (JArr (base ++ produced)),
       {| fs := files'; events := seg ++ events w |})
    ∧ appended svc questions (events w) base seg produced.
Proof.
  revert base i w. induction items as [|q items IH]; intros base i w Hdrop.
  - exists [], [], (fs w). rewrite app_nil_r. destruct w.
    split; [reflexivity|apply appended_nil].
  - apply drop_cons_lookup in Hdrop as [Hq Hdrop].
    cbn [for_entries]. unfold mbind, M_bind.
    destruct (askQuestion_array questions total base i q w Hq)
      as [(seg1 & -> & Hans & Hquiet)
         |(entry & head & tail & files1 & Hentry & -> & Hhead & Hnohead & Htail
           & Hquiet)].
    + destruct (IH base (S i) {| fs := fs w; events := seg1 ++ events w |}
                  Hdrop)
        as (produced & seg2 & files2 & -> & Happ).
      exists produced, (seg2 ++ seg1), files2. cbn [events] in *.
      split; [by rewrite <- app_assoc|by apply appended_quiet].
    + destruct (IH (base ++ [entry]) (S i)
                  {| fs := files1;
                     events := head
                               :: EvWrite RESULTS_FILE
                                    (JSON_stringify (JArr (base ++ [entry])))
                               :: tail ++ events w |} Hdrop)
        as (produced & seg2 & files2 & -> & Happ).
      exists (entry :: produced),
        (seg2 ++ head
              :: EvWrite RESULTS_FILE (JSON_stringify (JArr (base ++ [entry])))
              :: tail), files2.
      cbn [events] in *. split.
      * by rewrite <- !app_assoc.
      * by apply appended_entry.
Qed.

Lemma ask_loop_not_array total items cur i w :
  (∀ l, cur ≠ JArr l) →
  ∃ seg,
    for_entries (askQuestion svc total) i cur items w
    = (Ret cur, {| fs := fs w; events := seg ++ events w |})
    ∧ ∀ path data, EvWrite path data ∉ seg.
Proof.
  intros Hcur. revert i w. induction items as [|q items IH]; intros i w.
  - exists []. destruct w. split; [reflexivity|]. by intros ? ? ?%elem_of_nil.
  - cbn [for_entries]. unfold mbind, M_bind.
    destruct (askQuestion_not_array total cur i q w Hcur) as (seg1 & -> & Hq1).
    destruct (IH (S i) {| fs := fs w; events := seg1 ++ events w |})
      as (seg2 & -> & Hq2).
    exists (seg2 ++ seg1). cbn [fs events]. split; [by rewrite <- app_assoc|].
    intros path data [?|?]%elem_of_app; [by eapply Hq2|by eapply Hq1].
Qed.

(** The run once results.json is ready: either nothing is written, or the
    loop appends to the array that the file holds; an error that ends the
    run comes before any write. *)
Lemma after_init_writes w0 :
  ∃ seg o files',
    (_ ← checkOllama svc;
     questions ← readJson QUESTIONS_FILE;
     existingResults ← readJson RESULTS_FILE;
     items ← entries questions;
     _ ← for_entries (askQuestion svc (length items)) 0 existingResults items;
     mret tt) w0
    = (o, {| fs := files'; events := seg ++ events w0 |})
    ∧ ((∀ path data, EvWrite path data ∉ seg)
       ∨ o = Ret tt
         ∧ ∃ questions base produced,
             fs w0 !! QUESTIONS_FILE = Some (FileJson (JArr questions))
             ∧ fs w0 !! RESULTS_FILE = Some (FileJson (JArr base))
             ∧ appended svc questions (events w0) base seg produced).
Proof.
  unfold mbind at 1, M_bind at 1. rewrite checkOllama_run.
  destruct (chat_reply svc _ _ _ _) as [text|msg];
    [|eexists [_; _], _, _; split; [done|left; no_write_in_list]].
  unfold mbind at 1, M_bind at 1, readJson at 1, emit. cbn [fs events].
  destruct (fs w0 !! QUESTIONS_FILE) as [[v|]|];
    [|eexists [_], _, _; split; [done|left; no_write_in_list]..].
  unfold mbind at 1, M_bind at 1, readJson at 1. cbn [fs events].
  destruct (fs w0 !! RESULTS_FILE) as [[r|]|] eqn:Hr;
    [|eexists [_], _, _; split; [done|left; no_write_in_list]..].
  unfold mbind at 1, M_bind at 1, entries.
  destruct v as [| | | |items|];
    try (eexists [_], _, _; split; [done|left; no_write_in_list]).
  unfold mret at 1, M_ret at 1. unfold mbind at 1, M_bind at 1.
  assert (Harr : (∃ base, r = JArr base) ∨ (∀ l, r ≠ JArr l))
    by (destruct r; eauto).
  destruct Harr as [[base ->]|Hother].
  - destruct (ask_loop_array items (length items) items base 0
                {| fs := fs w0; events := ping :: events w0 |} eq_refl)
      as (produced & seg & files' & -> & Happ).
    exists (seg ++ [ping]), (Ret tt), files'. cbn [events] in *.
    split; [by rewrite <- app_assoc|].
    right. split; [done|]. exists items, base, produced. split_and!; [done..|].
    apply appended_quiet; [done|no_write_in_list|done].
  - destruct (ask_loop_not_array (length items) items r 0
                {| fs := fs w0; events := ping :: events w0 |} Hother)
      as (seg & -> & Hquiet).
    exists (seg ++ [ping]), (Ret tt), (fs w0). cbn [events].
    split; [by rewrite <- app_assoc|].
    left. intros path data [?|Hin]%elem_of_app; [by eapply Hquiet|].
    by apply list_elem_of_singleton in Hin.
Qed.

(** Every run: results.json is made ready, and then either nothing is
    written, or the loop appends to the array the file held. *)
Lemma main_writes files :
  ∃ seg,
    events (final svc (initial files)) = seg ++ init_events files
    ∧ ((∀ path data, EvWrite path data ∉ seg)
       ∨ ∃ produced,
           appended svc (questions_at_start files) (init_events files)
             (entries_at_start files) seg produced).
Proof.
  unfold final, main, processQuestions, try_catch.
  unfold mbind at 1, M_bind at 1. rewrite initResultsFile_run.
  unfold init_events, entries_at_start, questions_at_start. cbn [initial fs].
  destruct (files !! RESULTS_FILE) as [f|] eqn:Hfile.
  - cbv beta iota.
    destruct (after_init_writes (initial files))
      as (seg & o & files' & -> & Hcases).
    cbn [initial fs events] in Hcases |- *. rewrite Hfile in Hcases.
    destruct Hcases
      as [Hquiet|(-> & questions & base & produced & -> & [= ->] & Happ)].
    + destruct o as [[]|msg|c]; cbn [snd events]; run_monad.
      * exists seg. auto.
      * exists (EvLog (Uncaught msg) :: seg). split; [done|]. left.
        intros path data [?|?]%elem_of_cons; [done|by eapply Hquiet].
      * exists seg. auto.
    + exists seg. cbn [snd events]. split; [done|]. right. by exists produced.
  - unfold writeFile, initial. cbn [events fs].
    destruct (write_error svc [] RESULTS_FILE (FileJson (JArr []))) as [msg|];
      cbv beta iota.
    + run_monad. exists [EvLog (Uncaught msg)]. split; [done|]. left.
      no_write_in_list.
    + destruct (after_init_writes
                  {| fs := <[RESULTS_FILE := FileJson (JArr [])]> files;
                     events := [EvWrite RESULTS_FILE (FileJson (JArr []))] |})
        as (seg & o & files' & -> & Hcases).
      cbn [fs events] in Hcases.
      rewrite lookup_insert_eq, lookup_insert_ne in Hcases by done.
      destruct Hcases
        as [Hquiet|(-> & questions & base & produced & -> & [= <-] & Happ)].
      * destruct o as [[]|msg|c]; cbn [snd events].
        -- exists seg. auto.
        -- exists (EvLog (Uncaught msg) :: seg). split; [done|]. left.
           intros path data [?|?]%elem_of_cons; [done|by eapply Hquiet].
        -- exists seg. auto.
      * exists seg. cbn [snd events]. split; [done|]. right. by exists produced.
Qed.

(** C9, as the code has it: in single-model mode the run starts from what
    results.json holds, creating it as an empty array only if it is
    absent, as the first thing it does; every other write of the run is of
    results.json, comes after an answer, and holds, as [JSON.stringify]
    writes them, all the entries that were there at the start, in place,
    followed by the entries produced so far in this run, one for each
    answer received until then, the last of them being the entry of the
    question just answered, with the reply of the service and the time of
    the clock.  No write removes or reorders an entry recorded before the
    run; an entry recorded before stays as it was when [JSON.stringify]
    writes it back unchanged, and everything that a run writes is of that
    kind. *)
Theorem results_only_appended files :
  ∃ produced,
    ∀ pre path data post,
      trace (final svc (initial files)) = pre ++ EvWrite path data :: post →
      path = RESULTS_FILE
      ∧ data = JSON_stringify (JArr (entries_at_start files
                                     ++ take (answers pre) produced))
      ∧ (answers pre ≤ length produced)%nat
      ∧ (answers pre = 0%nat → files !! RESULTS_FILE = None ∧ pre = [])
      ∧ (answers pre ≠ 0%nat →
         produced !! (answers pre - 1)%nat
         = last_answer svc (questions_at_start files) (rev pre)
         ∧ is_Some (produced !! (answers pre - 1)%nat))
      ∧ (Forall stable (entries_at_start files) →
         data = FileJson (JArr (entries_at_start files
                                ++ map printed (take (answers pre) produced))))
      ∧ (∀ entries, data = FileJson (JArr entries) → Forall stable entries).
Proof.
  destruct (main_writes files) as (seg & Hev & Hcases).
  assert (Hdata : ∀ base new,
            (Forall stable base →
             JSON_stringify (JArr (base ++ new))
             = FileJson (JArr (base ++ map printed new)))
            ∧ (∀ entries,
                 JSON_stringify (JArr (base ++ new)) = FileJson (JArr entries) →
                 Forall stable entries)).
  { intros base new. unfold JSON_stringify. cbn [printed]. split.
    - intros Hbase. by rewrite map_app, (stable_entries base Hbase).
    - intros entries [= <-]. apply Forall_forall.
      intros e (v & -> & _)%list_elem_of_fmap. apply printed_stable. }
  assert (Hinit : ∀ produced pre path data post,
            seg ++ init_events files = rev post ++ EvWrite path data :: rev pre →
            (∃ mid, seg = rev post ++ EvWrite path data :: mid
                    ∧ rev pre = mid ++ init_events files)
            ∨ (path = RESULTS_FILE
               ∧ data = JSON_stringify (JArr (entries_at_start files
                                        ++ take (answers pre) produced))
               ∧ answers pre = 0%nat
               ∧ files !! RESULTS_FILE = None ∧ pre = [])).
  { intros produced pre path data post Heq.
    apply split_app_event in Heq as [(mid & ? & ?)|(mid & Hpost & Heq)];
      [left; eauto|right].
    unfold init_events, entries_at_start in *.
    destruct (files !! RESULTS_FILE); [by destruct mid|].
    destruct mid as [|e mid]; cbn in Heq; [|by destruct mid].
    injection Heq as <- <- Htl.
    assert (pre = []) as -> by (by rewrite <- (rev_involutive pre), <- Htl).
    done. }
  destruct Hcases as [Hquiet|(produced & Hlen & Hwrites)].
  - exists []. intros pre path data post Htrace%trace_split.
    rewrite Hev in Htrace.
    destruct (Hinit [] _ _ _ _ Htrace) as [(mid & -> & _)|(-> & -> & -> & ?)].
    + exfalso. apply (Hquiet path data). rewrite elem_of_app, elem_of_cons. auto.
    + split_and!; [done|done|cbn; lia|done|done|apply Hdata|apply Hdata].
  - exists produced.
    intros pre path data post Htrace%trace_split. rewrite Hev in Htrace.
    destruct (Hinit produced _ _ _ _ Htrace)
      as [(mid & Hseg & Hpre)|(-> & -> & -> & ?)].
    + destruct (Hwrites _ _ _ _ Hseg) as (-> & Hone & -> & Hlast).
      assert (Hans : answers pre = answers mid).
      { rewrite <- answers_rev, Hpre, answers_app. unfold init_events.
        destruct (files !! RESULTS_FILE); cbn; lia. }
      assert (Hle : (answers mid ≤ length produced)%nat).
      { rewrite <- Hlen, Hseg, answers_app.
        change (?e :: mid) with ([e] ++ mid). rewrite answers_app. lia. }
      rewrite Hans. split_and!; [done|done|done|lia| |apply Hdata|apply Hdata].
      intros _. rewrite Hpre. split; [done|].
      apply lookup_lt_is_Some. lia.
    + split_and!; [done|done|lia|done|done|apply Hdata|apply Hdata].
Qed.

(** *** More on the single-model runner *)

(** X13. [initResultsFile] never touches a results.json that exists, whatever it
    holds; when it returns, the file exists, holds the empty array if it
    was absent, no other file has changed, and calling it again changes
    nothing. *)
Theorem initResultsFile_keeps_existing w :
  (∀ f, fs w !! RESULTS_FILE = Some f → initResultsFile svc w = (Ret tt, w))
  ∧ (∀ w', initResultsFile svc w = (Ret tt, w') →
       initResultsFile svc w' = (Ret tt, w')
       ∧ (fs w !! RESULTS_FILE = None →
          fs w' !! RESULTS_FILE = Some (FileJson (JArr [])))
       ∧ ∀ p, p ≠ RESULTS_FILE → fs w' !! p = fs w !! p).
Proof.
  split.
  - intros f Hf. by rewrite initResultsFile_run, Hf.
  - intros w'. rewrite !initResultsFile_run.
    destruct (fs w !! RESULTS_FILE) as [f|] eqn:Hf.
    + intros [= <-]. by rewrite Hf.
    + unfold writeFile. destruct (write_error svc _ _ _); [done|].
      intros [= <-]. cbn [fs]. rewrite lookup_insert_eq. split_and!; [done..|].
      intros p Hp. by rewrite lookup_insert_ne.
Qed.

(** One turn of the loop, whatever the state and the answers: it never
    raises, it makes the one request of its question (none for [null]),
    and it changes no file but results.json. *)
Lemma askQuestion_turn total cur index q w :
  ∃ cur' files' seg,
    askQuestion svc total cur index q w
    = (Ret cur', {| fs := files'; events := seg ++ events w |})
    ∧ chat_requests (rev seg) = request_for q
    ∧ ∀ p, p ≠ RESULTS_FILE → files' !! p = fs w !! p.
Proof.
  unfold askQuestion.
  destruct q as [|b|x|s|items|fields]; unfold property; run_monad.
  1: { by eexists _, _, [_]. }
  all: destruct (chat_reply svc _ _ _ _) as [content|msg]; cbn [events fs];
    [|by eexists _, _, [_; _; _]].
  all: destruct cur; unfold push; run_monad;
    try (by eexists _, _, [_; _; _; _; _]).
  all: destruct (write_error svc _ _ _) as [msg|]; cbn [events fs];
    eexists _, _, [_; _; _; _; _; _]; (split_and!; [reflexivity|done|]);
    intros p Hp; by rewrite ?lookup_insert_ne.
Qed.

Lemma ask_loop_turns total items cur i w :
  ∃ cur' files' seg,
    for_entries (askQuestion svc total) i cur items w
    = (Ret cur', {| fs := files'; events := seg ++ events w |})
    ∧ chat_requests (rev seg) = flat_map request_for items
    ∧ ∀ p, p ≠ RESULTS_FILE → files' !! p = fs w !! p.
Proof.
  revert cur i w. induction items as [|q items IH]; intros cur i w.
  - exists cur, (fs w), []. by destruct w.
  - cbn [for_entries]. unfold mbind, M_bind.
    destruct (askQuestion_turn total cur i q w)
      as (cur1 & files1 & seg1 & -> & Hreq1 & Hframe1).
    destruct (IH cur1 (S i) {| fs := files1; events := seg1 ++ events w |})
      as (cur2 & files2 & seg2 & -> & Hreq2 & Hframe2).
    exists cur2, files2, (seg2 ++ seg1). cbn [fs events] in *. split_and!.
    + by rewrite <- app_assoc.
    + rewrite rev_app_distr, chat_requests_app, Hreq1, Hreq2. done.
    + intros p Hp. by rewrite Hframe2, Hframe1.
Qed.

(** The run once results.json is ready: how it ends, what it asks, and
    which files it leaves alone. *)
Lemma after_init_outcome w0 :
  ∃ seg o files',
    (_ ← checkOllama svc;
     questions ← readJson QUESTIONS_FILE;
     existingResults ← readJson RESULTS_FILE;
     items ← entries questions;
     _ ← for_entries (askQuestion svc (length items)) 0 existingResults items;
     mret tt) w0
    = (o, {| fs := files'; events := seg ++ events w0 |})
    ∧ (∀ p, p ≠ RESULTS_FILE → files' !! p = fs w0 !! p)
    ∧ match chat_reply svc (events w0) MODEL_NAME (Some (JStr (lit "ping")))
              (Some 5000) with
      | inr _ => o = Exit 1
      | inl _ =>
          (o = Ret tt ∨ ∃ msg, o = Throw msg)
          ∧ ∀ items r,
              fs w0 !! QUESTIONS_FILE = Some (FileJson (JArr items)) →
              fs w0 !! RESULTS_FILE = Some (FileJson r) →
              o = Ret tt
              ∧ chat_requests (rev seg) = ping :: flat_map request_for items
      end.
Proof.
  unfold mbind at 1, M_bind at 1. rewrite checkOllama_run.
  destruct (chat_reply svc _ _ _ _) as [text|msg];
    [|by eexists [_; _], _, _].
  unfold mbind at 1, M_bind at 1, readJson at 1, emit. cbn [fs events].
  destruct (fs w0 !! QUESTIONS_FILE) as [[v|]|];
    [|eexists [_], _, _; split_and!; [done|done|eauto|done]..].
  unfold mbind at 1, M_bind at 1, readJson at 1. cbn [fs events].
  destruct (fs w0 !! RESULTS_FILE) as [[r|]|] eqn:Hr;
    [|eexists [_], _, _; split_and!; [done|done|eauto|done]..].
  unfold mbind at 1, M_bind at 1, entries.
  destruct v as [| | | |items|];
    try (eexists [_], _, _; split_and!; [done|done|eauto|done]).
  unfold mret at 1, M_ret at 1. unfold mbind at 1, M_bind at 1.
  destruct (ask_loop_turns (length items) items r 0
              {| fs := fs w0; events := ping :: events w0 |})
    as (cur' & files' & seg & -> & Hreq & Hframe).
  exists (seg ++ [ping]), (Ret tt), files'. cbn [events fs] in *.
  split_and!; [by rewrite <- app_assoc|done|by left|].
  intros items' r' [= <-] _. split; [done|].
  by rewrite rev_app_distr, chat_requests_app, Hreq.
Qed.

(** The two ways a run can go: results.json cannot be created and the run
    ends at once, or it is made ready and the run goes on from there. *)
Lemma main_cases files :
  (files !! RESULTS_FILE = None
   ∧ ∃ msg,
       write_error svc [] RESULTS_FILE (FileJson (JArr [])) = Some msg
       ∧ main svc (initial files)
         = (Ret tt,
            {| fs := files;
               events := [EvLog (Uncaught msg);
                          EvWrite RESULTS_FILE (FileJson (JArr []))] |}))
  ∨ ((files !! RESULTS_FILE = None →
      write_error svc [] RESULTS_FILE (FileJson (JArr [])) = None)
     ∧ ∃ seg o files',
         main svc (initial files)
         = (match o with Throw _ => Ret tt | _ => o end,
            {| fs := files';
               events := match o with
                         | Throw msg => [EvLog (Uncaught msg)]
                         | _ => []
                         end ++ seg ++ events (ready files) |})
         ∧ (∀ p, p ≠ RESULTS_FILE → files' !! p = fs (ready files) !! p)
         ∧ match chat_reply svc (events (ready files)) MODEL_NAME
                   (Some (JStr (lit "ping"))) (Some 5000) with
           | inr _ => o = Exit 1
           | inl _ =>
               (o = Ret tt ∨ ∃ msg, o = Throw msg)
               ∧ ∀ items r,
                   fs (ready files) !! QUESTIONS_FILE
                   = Some (FileJson (JArr items)) →
                   fs (ready files) !! RESULTS_FILE = Some (FileJson r) →
                   o = Ret tt
                   ∧ chat_requests (rev seg)
                     = ping :: flat_map request_for items
           end).
Proof.
  destruct (files !! RESULTS_FILE) as [f|] eqn:Hfile;
    [|destruct (write_error svc [] RESULTS_FILE (FileJson (JArr [])))
        as [msg|] eqn:Herr].
  2: { left. split; [done|]. exists msg. split; [done|].
       unfold main, processQuestions, try_catch.
       unfold mbind at 1, M_bind at 1. rewrite initResultsFile_run.
       cbn [initial fs]. rewrite Hfile. unfold writeFile, initial.
       cbn [events fs]. rewrite Herr. by run_monad. }
  all: right; split; [done|];
    unfold main, processQuestions, try_catch;
    unfold mbind at 1, M_bind at 1;
    rewrite initResultsFile_ready by (by rewrite ?Hfile);
    destruct (after_init_outcome (ready files))
      as (seg & o & files' & -> & Hframe & Hend);
    exists seg, o, files'; (split_and!; [|done|done]);
    by destruct o as [[]|msg|c].
Qed.

(** X14. The exit code of the single-model script: 1 exactly when results.json
    is there or could be created and the request of the connection check
    then failed; 0 in every other case, whatever went wrong later. *)
Theorem single_run_exit_code files :
  exit_code svc (initial files)
  = match files !! RESULTS_FILE,
          write_error svc [] RESULTS_FILE (FileJson (JArr [])) with
    | None, Some _ => 0
    | _, _ =>
        match chat_reply svc (events (ready files)) MODEL_NAME
                (Some (JStr (lit "ping"))) (Some 5000) with
        | inl _ => 0
        | inr _ => 1
        end
    end.
Proof.
  unfold exit_code.
  destruct (main_cases files)
    as [(Hfile & msg & Herr & ->)
       |(Hinit & seg & o & files' & -> & _ & Hend)].
  - by rewrite Hfile, Herr.
  - assert (Hcode : match o with Throw _ => Ret tt | _ => o end
                    = match chat_reply svc (events (ready files)) MODEL_NAME
                              (Some (JStr (lit "ping"))) (Some 5000) with
                      | inl _ => Ret tt
                      | inr _ => Exit 1
                      end).
    { destruct (chat_reply svc _ _ _ _); [|by subst].
      by destruct Hend as [[->|[msg ->]] _]. }
    rewrite Hcode.
    destruct (files !! RESULTS_FILE) as [f|];
      [|rewrite Hinit by done]; by destruct (chat_reply svc _ _ _ _).
Qed.

(** X15. The single-model script changes no file but results.json: every other
    path, questions.json among them, holds at the end what it held at the
    start. *)
Theorem single_run_leaves_other_files files p :
  p ≠ RESULTS_FILE →
  fs (final svc (initial files)) !! p = files !! p.
Proof.
  intros Hp. unfold final.
  destruct (main_cases files)
    as [(Hfile & msg & Herr & ->)
       |(Hinit & seg & o & files' & -> & Hframe & _)]; [done|].
  cbn [snd fs]. rewrite Hframe by done. unfold ready.
  destruct (files !! RESULTS_FILE); [done|]. cbn [fs].
  by rewrite lookup_insert_ne.
Qed.







End SingleRun.

(** *** More on the scorer *)

Lemma count_spaces_le_length (a : jsstring) :
  (Scorer.count_spaces a ≤ length a)%nat.
Proof. apply length_filter. Qed.

(** X1. The score always lies between 15 and 85: the adjustments cannot all
    apply at once, and the final clamp to [0, 100] never changes
    anything. *)
Theorem scoreAnswer_between_15_and_85 (lower : jsstring → jsstring)
    (a : jsstring) (questionId : Z) :
  15 ≤ Scorer.scoreAnswer lower a questionId ≤ 85.
Proof.
  unfold Scorer.scoreAnswer.
  destruct (Z.ltb_spec (Z.of_nat (length a)) 50),
    (Z.ltb_spec 500 (Z.of_nat (length a))),
    (Z.eqb_spec questionId 1), (Z.eqb_spec questionId 12);
    cbn [andb];
    repeat match goal with |- context [if ?b then _ else _] => destruct b end;
    lia.
Qed.

(** X2. An answer of fewer than 50 code units to a question other than 1 and
    12 scores 30, or 15 if it apologises: it is too short for the bonus on
    the number of pieces. *)
Theorem scoreAnswer_short (lower : jsstring → jsstring) (a : jsstring)
    (questionId : Z) :
  (length a < 50)%nat → questionId ≠ 1 → questionId ≠ 12 →
  Scorer.scoreAnswer lower a questionId = if apologises a then 15 else 30.
Proof.
  intros Hshort H1 H12. unfold Scorer.scoreAnswer, apologises.
  rewrite length_split_spaces.
  pose proof (count_spaces_le_length a).
  destruct (Z.ltb_spec (Z.of_nat (length a)) 50); [|lia].
  destruct (Z.ltb_spec 500 (Z.of_nat (length a))); [lia|].
  destruct (Z.ltb_spec 100 (Z.of_nat (S (Scorer.count_spaces a)))); [lia|].
  destruct (Z.eqb_spec questionId 1); [done|].
  destruct (Z.eqb_spec questionId 12); [done|].
  cbn [andb]. by destruct (includes a (lit "sorry") || includes a (lit "not sure")).
Qed.

(** X3. Only questions 1 and 12 have a bonus of their own: for any other
    question the score depends neither on the question nor on how the
    answer is put in lower case. *)
Theorem scoreAnswer_other_questions (lower lower' : jsstring → jsstring)
    (a : jsstring) (q q' : Z) :
  q ≠ 1 → q ≠ 12 → q' ≠ 1 → q' ≠ 12 →
  Scorer.scoreAnswer lower a q = Scorer.scoreAnswer lower' a q'.
Proof.
  intros H1 H12 H1' H12'. unfold Scorer.scoreAnswer.
  destruct (Z.eqb_spec q 1), (Z.eqb_spec q 12), (Z.eqb_spec q' 1),
    (Z.eqb_spec q' 12); done.
Qed.

Lemma startsWithUnits_spec (needle s : jsstring) :
  startsWithUnits needle s = true ↔ ∃ post, s = needle ++ post.
Proof.
  revert s. induction needle as [|c needle IH]; intros s; cbn.
  - split; [by exists s|done].
  - destruct s as [|d s]; [split; [done|by intros [? ?]]|].
    rewrite andb_true_iff, IH, N.eqb_eq. split.
    + intros [-> [post ->]]. by exists post.
    + intros [post [= -> ->]]. eauto.
Qed.

(** X4. [includes] is the search for a run of code units: it answers true
    exactly when the needle occurs somewhere in the string. *)
Theorem includes_occurs (s needle : jsstring) :
  includes s needle = true ↔ ∃ pre post, s = pre ++ needle ++ post.
Proof.
  induction s as [|d s IH]; cbn [includes]; rewrite orb_true_iff,
    startsWithUnits_spec.
  - split.
    + intros [[post H]|?]; [|done]. by exists [], post.
    + intros (pre & post & H). left.
      destruct pre; [by exists post|done].
  - rewrite IH. split.
    + intros [[post H]|(pre & post & ->)]; [by exists [], post|].
      by exists (d :: pre), post.
    + intros ([|e pre] & post & H); [left; by exists post|right].
      injection H as -> ->. by exists pre, post.
Qed.

Lemma split_from_not_nil (sep : N) (s cur : jsstring) :
  split_from sep cur s ≠ [].
Proof.
  revert cur. induction s as [|c s IH]; intros cur; cbn; [done|].
  by destruct (c =? sep)%N.
Qed.

Lemma join_cons (piece : jsstring) (rest : list jsstring) (sep : N) :
  rest ≠ [] → join (piece :: rest) sep = piece ++ sep :: join rest sep.
Proof. by destruct rest. Qed.

Lemma split_from_join (sep : N) (s cur : jsstring) :
  join (split_from sep cur s) sep = rev cur ++ s
  ∧ (sep ∉ cur → Forall (λ piece, sep ∉ piece) (split_from sep cur s)).
Proof.
  revert cur. induction s as [|c s IH]; intros cur; cbn [split_from].
  - split; [cbn; by rewrite app_nil_r|].
    intros Hcur. constructor; [|done]. by rewrite elem_of_rev.
  - destruct (N.eqb_spec c sep) as [->|Hne].
    + destruct (IH []) as [Hjoin Hall]. split.
      * rewrite join_cons by apply split_from_not_nil. by rewrite Hjoin.
      * intros Hcur. constructor; [by rewrite elem_of_rev|].
        apply Hall. by intros ?%elem_of_nil.
    + destruct (IH (c :: cur)) as [Hjoin Hall]. split.
      * rewrite Hjoin. cbn [rev]. by rewrite <- app_assoc.
      * intros Hcur. apply Hall. by intros [?|?]%elem_of_cons.
Qed.

(** X5. [split] cuts at every separator and nowhere else: no piece holds the
    separator, and the pieces joined by it give the string back. *)
Theorem split_join (s : jsstring) (sep : N) :
  join (split s sep) sep = s
  ∧ Forall (λ piece, sep ∉ piece) (split s sep).
Proof.
  destruct (split_from_join sep s []) as [Hjoin Hall].
  split; [done|]. apply Hall. by intros ?%elem_of_nil.
Qed.
(** ** The properties on concrete runs *)

Section Concrete.

Import Examples.

(** C2 as stated fails: with two models installed and two questions, one
    of them answered with an apology in Hindi, the mean of llama3 is 46.25
    and the report holds the text "46.3" for it, not a number. *)
Lemma avg_score_is_text :
  (reported_summary demo_dir demo_final "llama3" ≫= avg_score)
  = Some (JStr (lit "46.3"))
  ∧ (∀ x, reported_summary demo_dir demo_final "llama3" ≫= avg_score
          ≠ Some (JNum x))
  ∧ reported_summary demo_dir demo_final "llama3"
    ≠ Some (MumbaiTest.summary_as_specified runtime demo_items "llama3"
              [MumbaiTest.Answered neutral_answer neutral_answer 2 2;
               MumbaiTest.Answered neutral_answer sorry_answer 2 2])
  ∧ MumbaiTest.mean_score runtime demo_items
      [MumbaiTest.Answered neutral_answer neutral_answer 2 2;
       MumbaiTest.Answered neutral_answer sorry_answer 2 2]
    = 46.25%float.
Proof.
  assert (H : reported_summary demo_dir demo_final "llama3" ≫= avg_score
              = Some (JStr (lit "46.3"))) by (vm_compute; reflexivity).
  assert (Hspec : Some (MumbaiTest.summary_as_specified runtime demo_items
                          "llama3"
                          [MumbaiTest.Answered neutral_answer neutral_answer 2 2;
                           MumbaiTest.Answered neutral_answer sorry_answer 2 2])
                  ≫= avg_score
                  = Some (JNum 46.25%float)) by (vm_compute; reflexivity).
  split_and!.
  - exact H.
  - intros x Hx. rewrite H in Hx. discriminate Hx.
  - intros Heq. rewrite Heq, Hspec in H. discriminate H.
  - vm_compute. reflexivity.
Qed.

(** With an empty list of questions the mean is 0/0 and the report holds
    the text "NaN". *)
Example avg_score_no_questions :
  reported_summary demo_dir
    (MumbaiTest.final runtime demo_service demo_dir (JArr []) (initial ∅))
    "llama3" ≫= avg_score
  = Some (JStr (lit "NaN")).
Proof. vm_compute. reflexivity. Qed.

(** The report of the run with two models installed: llama3, which the
    service lists when it is asked, has its summary. *)
Lemma final_report_summaries_witness :
  ∃ start models stop,
    written_at (MumbaiTest.finalReportPath demo_dir) (events demo_final)
    = JSON_stringify (MumbaiTest.finalReport start models stop)
    ∧ tested (trace demo_final) = MumbaiTest.MODELS
    ∧ is_Some (field "llama3" models)
    ∧ ∀ m summary,
        field m models = Some summary →
        ∃ qs rs,
          demo_questions = JArr qs
          ∧ length rs = length qs
          ∧ EvWrite (MumbaiTest.resultPath demo_dir m)
              (JSON_stringify
                 (JArr (zip_with (MumbaiTest.recordedEntry runtime) qs rs)))
            ∈ events demo_final
          ∧ summary
            = JObj [("avg_score",
                     JStr (toFixed1 runtime
                             (PrimFloat.div
                                (MumbaiTest.sum_scores runtime qs rs)
                                (Number_of_nat (length qs)))));
                    ("total_questions", JNum (Number_of_nat (length qs)));
                    ("details_file",
                     JStr (lit (MumbaiTest.resultsFileName m)))]
          ∧ (qs = [] →
             summary
             = JObj [("avg_score", JStr (toFixed1 runtime PrimFloat.nan));
                     ("total_questions", JNum 0);
                     ("details_file",
                      JStr (lit (MumbaiTest.resultsFileName m)))]).
Proof.
  destruct (final_report_summaries runtime demo_service demo_dir demo_questions
              ∅ (written_at (MumbaiTest.finalReportPath demo_dir)
                   (events demo_final)))
    as (start & models & stop & Hdata & Htested & Havailable & Hsummary & _).
  - apply (list_elem_of_lookup_2 _ 1). vm_compute. reflexivity.
  - exists start, models, stop. split_and!; [exact Hdata|exact Htested| |].
    + apply (Havailable "llama3" [EvNow] (drop 2 (trace demo_final))
               {| fs := ∅; events := [EvNow] |}).
      * vm_compute. reflexivity.
      * reflexivity.
      * vm_compute. reflexivity.
    + exact Hsummary.
Defined.

(** C5 as stated fails: all five models are installed, and the result
    file of the first one, llama3, cannot be written.  The run ends there:
    the error is logged, mistral and the other models are never tested and
    no final report is written. *)
Lemma write_failure_stops_the_run :
  MumbaiTest.listed readonly_service [] "mistral" = true
  ∧ (first_write (trace readonly_final)).1
    = MumbaiTest.resultPath demo_dir "llama3"
  ∧ after_write (trace readonly_final)
    = [EvLog (UnexpectedError "EACCES: permission denied")]
  ∧ count_chats "mistral" (events readonly_final) = 0%nat
  ∧ fs readonly_final !! MumbaiTest.finalReportPath demo_dir = None.
Proof. vm_compute. done. Qed.

(** That run, cut at the write that failed. *)
Lemma failed_write_ends_run_witness :
  after_write (trace readonly_final)
  = [EvLog (UnexpectedError "EACCES: permission denied")].
Proof.
  apply (failed_write_ends_run runtime readonly_service demo_dir demo_questions ∅
           (before_write (trace readonly_final))
           (first_write (trace readonly_final)).1
           (first_write (trace readonly_final)).2).
  - vm_compute. reflexivity.
  - vm_compute. reflexivity.
Defined.

(** The first write of the run with two models installed: the file of
    llama3. *)
Lemma result_file_written_after_all_questions_witness :
  ∃ qs rs,
    demo_questions = JArr qs
    ∧ length rs = length qs
    ∧ (first_write (trace demo_final)).2
      = JSON_stringify
          (JArr (zip_with (MumbaiTest.recordedEntry runtime) qs rs))
    ∧ (∀ c t, EvChat "llama3" c t ∉ after_write (trace demo_final))
    ∧ ∃ loop older,
        before_write (trace demo_final)
        = older ++ rev (MumbaiTest.turn_events qs "llama3" loop)
        ∧ Forall (MumbaiTest.question_event "llama3") loop
        ∧ MumbaiTest.progress (rev loop) = seq 1 (length qs).
Proof.
  apply (result_file_written_after_all_questions runtime demo_service demo_dir
           demo_questions ∅ "llama3" (before_write (trace demo_final))).
  vm_compute. reflexivity.
Defined.

(** mistral, which the service of that run does not list. *)
Lemma unavailable_model_skipped_witness :
  MumbaiTest.testModel runtime demo_service demo_dir demo_questions []
    "mistral" (initial ∅)
  = (Ret [],
     {| fs := ∅;
        events := [EvLog (ModelNotFound "mistral"); EvList;
                   EvLog (Testing "mistral")] |})
  ∧ (∀ c t, EvChat "mistral" c t ∉ events demo_final)
  ∧ (∀ data,
       EvWrite (MumbaiTest.resultPath demo_dir "mistral") data
       ∉ events demo_final)
  ∧ (∀ data,
       EvWrite (MumbaiTest.finalReportPath demo_dir) data ∈ events demo_final →
       field "mistral" (MumbaiTest.report_models data) = None
       ∧ ∃ start models stop,
           data = JSON_stringify (MumbaiTest.finalReport start models stop)
           ∧ field "mistral" models = None)
  ∧ (∀ path start models stop,
       EvWrite path (JSON_stringify (MumbaiTest.finalReport start models stop))
       ∈ events demo_final →
       field "mistral" models = None).
Proof.
  destruct (unavailable_model_skipped runtime demo_service demo_dir
              demo_questions ∅ "mistral") as [Hturn Hrun].
  split.
  - apply (Hturn [] (initial ∅)). vm_compute. reflexivity.
  - apply Hrun. apply (list_elem_of_lookup_2 _ 32). vm_compute. reflexivity.
Defined.

(** A run against a service that cannot be reached. *)
Lemma unreachable_service_skips_all_witness :
  ∃ start stop,
    MumbaiTest.main runtime down_service demo_dir demo_questions (initial ∅)
    = (Ret tt,
       {| fs := {[ MumbaiTest.finalReportPath demo_dir
                   := FileJson (MumbaiTest.finalReport start [] stop) ]};
          events := EvLog AllComplete
                    :: EvWrite (MumbaiTest.finalReportPath demo_dir)
                         (FileJson (MumbaiTest.finalReport start [] stop))
                    :: EvNow :: MumbaiTest.all_skipped MumbaiTest.MODELS |}).
Proof.
  destruct (unreachable_service_skips_all runtime down_service demo_dir
              demo_questions ∅) as (_ & _ & Hdown).
  destruct Hdown as (start & stop & Hmain).
  - intros h. by exists "ECONNREFUSED"%string.
  - exists start, stop. exact Hmain.
Defined.

(** ** askOllama.js on concrete runs *)

(** C3 as stated fails: with a questions file of two entries and a chat
    service that fails every call, the connection check fails first: the
    process exits with code 1 and no failure of a question is logged. *)
Lemma every_call_fails_exit_1 :
  AskOllama.exit_code down_service (initial questions_only) = 1
  ∧ AskOllama.failed_questions
      (trace (AskOllama.final down_service (initial questions_only))) = []
  ∧ trace (AskOllama.final down_service (initial questions_only))
    = [EvWrite AskOllama.RESULTS_FILE (FileJson (JArr []));
       AskOllama.ping;
       EvLog (ConnectionFailed "ECONNREFUSED")].
Proof. vm_compute. done. Qed.

(** Two questions: a service that answers the check and nothing else, and
    a service that answers nothing. *)
Lemma all_questions_fail_witness :
  (AskOllama.exit_code ping_only_service (initial questions_only) = 0
   ∧ AskOllama.failed_questions
       (trace (AskOllama.final ping_only_service (initial questions_only)))
     = [1; 2]%nat
   ∧ fs (AskOllama.final ping_only_service (initial questions_only))
       !! AskOllama.RESULTS_FILE
     = Some (FileJson (JArr []))
   ∧ ∀ path data,
       EvWrite path data
       ∈ trace (AskOllama.final ping_only_service (initial questions_only)) →
       questions_only !! AskOllama.RESULTS_FILE = None
       ∧ data = FileJson (JArr []))
  ∧ (AskOllama.exit_code down_service (initial questions_only) = 1
     ∧ trace (AskOllama.final down_service (initial questions_only))
       = trace (AskOllama.ready questions_only)
         ++ [AskOllama.ping; EvLog (ConnectionFailed "ECONNREFUSED")]
     ∧ AskOllama.failed_questions
         (trace (AskOllama.final down_service (initial questions_only))) = []
     ∧ fs (AskOllama.final down_service (initial questions_only))
       = fs (AskOllama.ready questions_only)).
Proof.
  split.
  - apply (proj1 (all_questions_fail ping_only_service questions_only)
             two_items).
    + vm_compute. reflexivity.
    + vm_compute. reflexivity.
    + by exists (lit "pong").
    + intros h c. by exists "timeout"%string.
  - apply (proj2 (all_questions_fail down_service questions_only)
             "ECONNREFUSED"%string).
    + vm_compute. reflexivity.
    + reflexivity.
Defined.

(** C4 as stated fails: with no questions file at all, a chat request is
    still issued, the "ping" of the connection check, and the process ends
    with code 0. *)
Lemma missing_questions_still_pings :
  AskOllama.chat_requests (trace (AskOllama.final demo_service (initial ∅)))
  = [AskOllama.ping]
  ∧ AskOllama.exit_code demo_service (initial ∅) = 0.
Proof. vm_compute. done. Qed.

(** The same run, by the general property. *)
Lemma unusable_questions_file_witness :
  AskOllama.chat_requests (trace (AskOllama.final demo_service (initial ∅)))
  = [AskOllama.ping]
  ∧ AskOllama.failed_questions
      (trace (AskOllama.final demo_service (initial ∅))) = []
  ∧ AskOllama.exit_code demo_service (initial ∅) = 0
    ∧ ∃ msg,
        trace (AskOllama.final demo_service (initial ∅))
        = trace (AskOllama.ready ∅) ++ [AskOllama.ping; EvLog (Uncaught msg)].
Proof.
  apply (unusable_questions_file demo_service ∅).
  - vm_compute. exact I.
  - intros _. reflexivity.
Defined.

(** C7, where the code departs from it: the chat request for the first of
    two questions fails and the second one is asked at once; the only
    pause of the run is the one after the answer to the second
    question. *)
Theorem no_delay_after_failed_question :
  trace (AskOllama.final first_fails_service (initial questions_only))
  = [EvWrite AskOllama.RESULTS_FILE (FileJson (JArr []));
     AskOllama.ping;
     EvLog (AskingQuestion 1 2 (Some (JStr (lit "Q1"))));
     EvChat AskOllama.MODEL_NAME (Some (JStr (lit "Q1"))) (Some 30000);
     EvLog (QuestionFailed 1 "timeout");
     EvLog (AskingQuestion 2 2 (Some (JStr (lit "Q2"))));
     EvChat AskOllama.MODEL_NAME (Some (JStr (lit "Q2"))) (Some 30000);
     EvNow;
     EvLog (AnswerPreview 9 (lit "an answer"));
     EvWrite AskOllama.RESULTS_FILE
       (FileJson
          (JArr [JObj [("id", JNum (Number_of_Z 2));
                       ("question", JStr (lit "Q2"));
                       ("answer", JStr (lit "an answer"));
                       ("timestamp", JStr (lit "2024-01-01T00:00:00.000Z"))]]));
     EvSleep AskOllama.DELAY_BETWEEN_QUESTIONS].
Proof. vm_compute. reflexivity. Qed.

(** C9 as stated fails: results.json holds an entry whose id was written as
    1e999 and whose weight was written as -0.  The first answer of the run
    makes the script write the file again, and that entry comes back with
    the id [null] and the weight 0: it has been modified. *)
Lemma old_entry_rewritten :
  AskOllama.entries_at_start odd_results = [odd_entry]
  ∧ first_entry (AskOllama.final demo_service (initial odd_results))
    = Some (JObj [("id", JNull); ("question", JStr (lit "Q0"));
                  ("weight", JNum 0)])
  ∧ JObj [("id", JNull); ("question", JStr (lit "Q0")); ("weight", JNum 0)]
    ≠ odd_entry.
Proof.
  split_and!.
  - vm_compute. reflexivity.
  - vm_compute. reflexivity.
  - unfold odd_entry. intros H. discriminate H.
Qed.

(** A second run, on a results.json that holds an entry of an earlier run:
    the write that follows the answer to the second question. *)
Lemma results_only_appended_witness :
  ∃ produced,
    written_at AskOllama.RESULTS_FILE
      (events (AskOllama.final first_fails_service (initial second_run)))
    = FileJson (JArr ([old_entry] ++ map printed (take 1 produced)))
    ∧ produced !! 0%nat
      = Some (AskOllama.resultFor
                (JObj [("id", JNum (Number_of_Z 2));
                       ("category", JStr (lit "city"));
                       ("english", JStr (lit "Q2")); ("hindi", JStr [2326]%N)])
                (lit "an answer") (lit "2024-01-01T00:00:00.000Z")).
Proof.
  destruct (results_only_appended first_fails_service second_run)
    as (produced & Hwrites).
  exists produced.
  destruct (Hwrites
              (take 8 (trace (AskOllama.final first_fails_service
                                (initial second_run))))
              AskOllama.RESULTS_FILE
              (written_at AskOllama.RESULTS_FILE
                 (events (AskOllama.final first_fails_service
                            (initial second_run))))
              [EvSleep AskOllama.DELAY_BETWEEN_QUESTIONS])
    as (_ & _ & _ & _ & Hlast & Hkept & _).
  - vm_compute. reflexivity.
  - split.
    + apply Hkept. repeat constructor.
    + apply Hlast. vm_compute. intros H. discriminate H.
Defined.

(** ** The further properties on concrete inputs *)

(** A short apology to question 5. *)
Lemma scoreAnswer_short_witness :
  Scorer.scoreAnswer Scorer.ascii_toLowerCase short_apology 5 = 15.
Proof.
  exact (scoreAnswer_short Scorer.ascii_toLowerCase short_apology 5
           ltac:(vm_compute; lia) ltac:(lia) ltac:(lia)).
Defined.

(** Questions 2 and 51, with two different ways to lower the case. *)
Lemma scoreAnswer_other_questions_witness :
  Scorer.scoreAnswer Scorer.ascii_toLowerCase neutral_answer 2
  = Scorer.scoreAnswer (λ s, s) neutral_answer 51.
Proof.
  apply (scoreAnswer_other_questions Scorer.ascii_toLowerCase (λ s, s)
           neutral_answer 2 51); lia.
Defined.

(** "llama3" is installed as "llama3:latest", so "llama" is available
    too. *)
Lemma available_under_shorter_name_witness :
  (MumbaiTest.isModelAvailable demo_service "llama" (initial ∅)).1 = Ret true.
Proof.
  apply (available_under_shorter_name demo_service "llama3" "llama" (initial ∅));
    reflexivity.
Defined.

(** The report of the run with two models installed. *)
Lemma report_keys_in_order_witness :
  map fst (MumbaiTest.report_models
             (written_at (MumbaiTest.finalReportPath demo_dir)
                (events demo_final)))
  `sublist_of` MumbaiTest.MODELS
  ∧ ∃ start models stop,
      written_at (MumbaiTest.finalReportPath demo_dir) (events demo_final)
      = JSON_stringify (MumbaiTest.finalReport start models stop)
      ∧ map fst models `sublist_of` MumbaiTest.MODELS
      ∧ ∀ start' models' stop',
          written_at (MumbaiTest.finalReportPath demo_dir) (events demo_final)
          = JSON_stringify (MumbaiTest.finalReport start' models' stop') →
          map fst models' `sublist_of` MumbaiTest.MODELS.
Proof.
  apply (report_keys_in_order runtime demo_service demo_dir demo_questions ∅).
  apply (list_elem_of_lookup_2 _ 1). vm_compute. reflexivity.
Defined.

(** The same run on a disk that holds notes.txt. *)
Lemma batch_run_leaves_other_files_witness :
  fs (MumbaiTest.final runtime demo_service demo_dir demo_questions
        (initial with_notes)) !! "notes.txt"%string
  = with_notes !! "notes.txt"%string.
Proof.
  apply (batch_run_leaves_other_files runtime demo_service demo_dir
           demo_questions with_notes "notes.txt").
  - intros m _ H. discriminate H.
  - intros H. discriminate H.
Defined.

(** The summaries of that report and the files on disk. *)
Lemma report_matches_files_on_disk_witness :
  ∃ start models stop,
    written_at (MumbaiTest.finalReportPath demo_dir) (events demo_final)
    = JSON_stringify (MumbaiTest.finalReport start models stop)
    ∧ ∀ m summary,
        field m models = Some summary →
        ∃ qs rs,
          demo_questions = JArr qs
          ∧ length rs = length qs
          ∧ fs demo_final !! MumbaiTest.resultPath demo_dir m
            = Some (JSON_stringify
                      (JArr (zip_with (MumbaiTest.recordedEntry runtime) qs rs)))
          ∧ summary = MumbaiTest.summary_as_built runtime qs m rs.
Proof.
  apply (report_matches_files_on_disk runtime demo_service demo_dir
           demo_questions ∅).
  apply (list_elem_of_lookup_2 _ 1). vm_compute. reflexivity.
Defined.


(** Three questions, the second of which is [null]: the run of the first
    installed model raises, nothing is written. *)
Lemma unusable_questions_no_results_witness :
  (∀ m data,
     EvWrite (MumbaiTest.resultPath demo_dir m) data
     ∉ events (MumbaiTest.final runtime demo_service demo_dir holed_questions
                 (initial ∅)))
  ∧ (∀ data,
       EvWrite (MumbaiTest.finalReportPath demo_dir) data
       ∈ events (MumbaiTest.final runtime demo_service demo_dir holed_questions
                   (initial ∅)) →
       (∃ start stop,
          data = JSON_stringify (MumbaiTest.finalReport start [] stop))
       ∧ ∀ m, m ∈ MumbaiTest.MODELS →
           EvLog (ModelNotFound m)
           ∈ events (MumbaiTest.final runtime demo_service demo_dir
                       holed_questions (initial ∅))).
Proof.
  apply (unusable_questions_no_results runtime demo_service demo_dir
           holed_questions ∅).
  apply (list_elem_of_lookup_2 _ 1). reflexivity.
Defined.

(** A results.json that does not parse is left as it is; an absent one is
    created. *)
Lemma initResultsFile_keeps_existing_witness :
  AskOllama.initResultsFile demo_service (initial broken_results)
  = (Ret tt, initial broken_results)
  ∧ AskOllama.initResultsFile demo_service (AskOllama.ready ∅)
    = (Ret tt, AskOllama.ready ∅)
  ∧ fs (AskOllama.ready ∅) !! AskOllama.RESULTS_FILE
    = Some (FileJson (JArr [])).
Proof.
  destruct (initResultsFile_keeps_existing demo_service (initial broken_results))
    as [Hkeeps _].
  destruct (initResultsFile_keeps_existing demo_service (initial ∅))
    as [_ Hcreates].
  split.
  - apply (Hkeeps FileGarbage). reflexivity.
  - destruct (Hcreates (AskOllama.ready ∅)) as (Hagain & Hfile & _);
      [reflexivity|].
    split; [exact Hagain|apply Hfile; reflexivity].
Defined.

(** questions.json after a run in which a question failed. *)
Lemma single_run_leaves_other_files_witness :
  fs (AskOllama.final first_fails_service (initial questions_only))
    !! AskOllama.QUESTIONS_FILE
  = questions_only !! AskOllama.QUESTIONS_FILE.
Proof.
  apply (single_run_leaves_other_files first_fails_service questions_only
           AskOllama.QUESTIONS_FILE).
  intros H. discriminate H.
Defined.


End Concrete.
